(** * AudioSale Pro: sale records, derived statistics and list CRUD

    A shallow embedding of [src/types.ts], [src/services/storage.ts] and the
    state logic of [src/App.tsx].

    Conventions of the embedding:
    - a JavaScript [string] is a [string] of code units;
    - a JavaScript [number] is an IEEE-754 double. The amounts are whole
      currency units (the form's number inputs have the default step of one
      and [formatCurrency] prints no fraction digits), so a number is
      modelled by the integer it holds ([Z]), and the additions and
      subtractions of the code round their exact result to the nearest
      double, ties to even ([roundDouble]); fractions, [NaN] and the
      overflow to infinity beyond 2^1024 are outside the model;
    - React state is passed explicitly: a handler is a function from the
      component state (and the values the host hands it) to the next state. *)

From stdpp Require Import base option list sorting strings gmap fin_maps.
From Stdlib Require Import ZArith Lia Ascii DecimalString DecimalZ.
From Stdlib Require PrimFloat Uint63.

Local Open Scope Z_scope.
Local Open Scope string_scope.

(** ** Data model ([src/types.ts]) *)

Module EquipmentType.
Definition SPEAKER : string := "ลำโพง".
Definition AMPLIFIER : string := "แอมป์".
Definition PLAYER : string := "เครื่องเล่น/DAC".
Definition CABLE : string := "สายสัญญาณ".
Definition ACCESSORY : string := "อุปกรณ์เสริม".
Definition OTHER : string := "อื่นๆ".
End EquipmentType.

(** [interface SaleItem]; [type] is [EquipmentType | string], a string at run
    time, and [note] is optional. *)
Record SaleItem := mkSaleItem {
  id : string;
  brand : string;
  type : string;
  model : string;
  costPrice : Z;
  shippingCost : Z;
  sellingPrice : Z;
  date : string;
  note : option string
}.

#[global] Instance SaleItem_eq_dec : EqDecision SaleItem.
Proof. solve_decision. Defined.

(** [interface SummaryStats] *)
Record SummaryStats := mkSummaryStats {
  totalCost : Z;
  totalRevenue : Z;
  totalProfit : Z;
  count : Z
}.

(** ** Host string operations *)

(** [s.startsWith(p)] *)
Fixpoint startsWith (s p : string) {struct p} : bool :=
  match p with
  | EmptyString => true
  | String c p' =>
      match s with
      | EmptyString => false
      | String d s' => if Ascii.eqb d c then startsWith s' p' else false
      end
  end.

(** [s.substring(indexStart, indexEnd)]: the code units from the smaller
    index up to the larger one, both cut at the length of [s]. *)
Definition substring (s : string) (indexStart indexEnd : nat) : string :=
  String.substring (Nat.min indexStart indexEnd)
    (Nat.max indexStart indexEnd - Nat.min indexStart indexEnd) s.

(** ** Host arithmetic: doubles holding whole numbers *)

(** The 53-bit significand [q] of a magnitude whose discarded low part is
    [r], half a unit in the last place being [half]: rounded to nearest,
    ties to the even significand. *)
Definition roundedMantissa (q r half : Z) : Z :=
  if (r <? half)%Z then q
  else if (half <? r)%Z then q + 1
  else if Z.even q then q else q + 1.

(** The double nearest to the whole number [a >= 0]. Up to 2^53 every whole
    number is a double; above, [a] is cut to 53 significant bits. *)
Definition roundMagnitude (a : Z) : Z :=
  if (a <=? 2 ^ 53)%Z then a
  else
    let e := Z.log2 a - 52 in
    roundedMantissa (a / 2 ^ e) (a mod 2 ^ e) (2 ^ (e - 1)) * 2 ^ e.

(** Rounding is symmetric in the sign. *)
Definition roundDouble (z : Z) : Z := Z.sgn z * roundMagnitude (Z.abs z).

(** [a + b] and [a - b] on doubles: the exact result, rounded once. *)
Definition addDouble (a b : Z) : Z := roundDouble (a + b).
Definition subDouble (a b : Z) : Z := roundDouble (a - b).

(** The machine's binary64, to compare with: the double nearest to the whole
    number [z], for [0 <= z < 2^63]. *)
Definition machineDouble (z : Z) : PrimFloat.float :=
  PrimFloat.of_uint63 (Uint63.of_Z z).

Definition agreesOnRound (z : Z) : bool :=
  PrimFloat.eqb (machineDouble z) (machineDouble (roundDouble z)).

Definition agreesOnAdd (ab : Z * Z) : bool :=
  PrimFloat.eqb (PrimFloat.add (machineDouble ab.1) (machineDouble ab.2))
    (machineDouble (addDouble ab.1 ab.2)).

Definition agreesOnSub (ab : Z * Z) : bool :=
  PrimFloat.eqb (PrimFloat.sub (machineDouble ab.1) (machineDouble ab.2))
    (machineDouble (subDouble ab.1 ab.2)).

(** ** Aggregation ([src/App.tsx], the [useMemo] blocks) *)

(** [filteredSales] (lines 59-62) *)
Definition filteredSales (sales : list SaleItem) (selectedMonth : string)
  : list SaleItem :=
  if String.eqb selectedMonth "all" then sales
  else List.filter (fun s => startsWith (date s) selectedMonth) sales.

(** The reducer of [stats] (lines 66-76); [Number(x)] of a number is [x]. *)
Definition stats_step (acc : SummaryStats) (curr : SaleItem) : SummaryStats :=
  let cost := addDouble (costPrice curr) (shippingCost curr) in
  let revenue := sellingPrice curr in
  let profit := subDouble revenue cost in
  {| totalCost := addDouble (totalCost acc) cost;
     totalRevenue := addDouble (totalRevenue acc) revenue;
     totalProfit := addDouble (totalProfit acc) profit;
     count := addDouble (count acc) 1 |}.

(** [stats] (lines 65-78): [reduce] is a left fold *)
Definition stats (filtered : list SaleItem) : SummaryStats :=
  fold_left stats_step filtered
    {| totalCost := 0; totalRevenue := 0; totalProfit := 0; count := 0 |}.

(** *** [categoryData] (lines 81-91)

    [data] starts as the object literal [{}], whose prototype is
    [Object.prototype]. Reading [data[key]] finds an own property first and
    an inherited one otherwise; for keys that are neither, it is
    [undefined]. *)

(** A number stored in [data]: incrementing a non-number yields [NaN]. *)
Inductive jsnum :=
| Finite (z : Z)
| NaN.

#[global] Instance jsnum_eq_dec : EqDecision jsnum.
Proof. solve_decision. Defined.

(** What the expression [data[key]] evaluates to. *)
Inductive propValue :=
| PUndefined
| PNumber (n : jsnum)
| PInherited.

(** The property names every object literal inherits from
    [Object.prototype] (methods, [constructor], and the [__proto__]
    accessor). *)
Definition objectPrototypeKeys : list string :=
  [ "constructor"; "hasOwnProperty"; "isPrototypeOf"; "propertyIsEnumerable";
    "toLocaleString"; "toString"; "valueOf"; "__proto__";
    "__defineGetter__"; "__defineSetter__"; "__lookupGetter__";
    "__lookupSetter__" ].

Definition getProp (data : gmap string jsnum) (key : string) : propValue :=
  match data !! key with
  | Some n => PNumber n
  | None => if bool_decide (key ∈ objectPrototypeKeys) then PInherited
            else PUndefined
  end.

(** [data[key] = v]: creates or overwrites an own property, except that
    assigning a number to [__proto__] runs the inherited setter, which
    ignores it. *)
Definition setProp (data : gmap string jsnum) (key : string) (v : jsnum)
  : gmap string jsnum :=
  if String.eqb key "__proto__" then data else <[key := v]> data.

(** Truthiness of [data[key]]: [undefined], [0] and [NaN] are falsy, an
    inherited function or object is truthy. *)
Definition truthy (v : propValue) : bool :=
  match v with
  | PUndefined => false
  | PNumber (Finite z) => negb (z =? 0)%Z
  | PNumber NaN => false
  | PInherited => true
  end.

(** The numeric value the postfix [++] starts from. *)
Definition toNumber (v : propValue) : jsnum :=
  match v with
  | PNumber n => n
  | PUndefined | PInherited => NaN
  end.

Definition increment (n : jsnum) : jsnum :=
  match n with
  | Finite z => Finite (z + 1)
  | NaN => NaN
  end.

(** The body of the [forEach] callback (lines 84-88) *)
Definition categoryData_step (data : gmap string jsnum) (sale : SaleItem)
  : gmap string jsnum :=
  if truthy (getProp data (type sale))
  then setProp data (type sale) (increment (toNumber (getProp data (type sale))))
  else setProp data (type sale) (Finite 1).

Definition categoryCounts (filtered : list SaleItem) : gmap string jsnum :=
  fold_left categoryData_step filtered ∅.

(** One slice of the chart: [{ name: key, value: data[key] }] *)
Record ChartEntry := mkChartEntry {
  name : string;
  value : jsnum
}.

#[global] Instance ChartEntry_eq_dec : EqDecision ChartEntry.
Proof. solve_decision. Defined.

(** [categoryData]: the entries of [data]. The order of [Object.keys] is not
    modelled, the entries are read as a set. *)
Definition categoryData (filtered : list SaleItem) : list ChartEntry :=
  (fun kv => mkChartEntry kv.1 kv.2) <$> map_to_list (categoryCounts filtered).

(** *** [availableMonths] (lines 150-153) *)

(** [new Set(iterable)]: the distinct values, in order of first occurrence. *)
Definition Set_add (seen : list string) (x : string) : list string :=
  if bool_decide (x ∈ seen) then seen else seen ++ [x].

Definition Set_from (l : list string) : list string :=
  fold_left Set_add l [].

(** [Array.prototype.sort()] without a comparator orders strings by code
    units; on the distinct values of a set the result does not depend on
    the sorting algorithm. *)
Definition sort (l : list string) : list string := merge_sort String.le l.

Definition availableMonths (sales : list SaleItem) : list string :=
  reverse (sort (Set_from ((fun s => substring (date s) 0 7) <$> sales))).

(** ** Component state and handlers ([src/App.tsx], lines 24-143) *)

Inductive View := DASHBOARD | LIST | FORM.

(** The form state, a [Partial<SaleItem>]. The guard of [handleSubmit] tests
    [brand] and [model] for absence, and [id] and [note] are present only
    after [handleEdit] copied a stored record; the other fields are set by
    the initial state and by [resetForm] and are only ever overwritten. *)
Module Form.
Record t := mk {
  id : option string;
  brand : option string;
  type : string;
  model : option string;
  costPrice : Z;
  shippingCost : Z;
  sellingPrice : Z;
  date : string;
  note : option string
}.

(** The object literal of [useState] (lines 37-45) and of [resetForm]
    (lines 133-141); [today] is
    [new Date().toISOString().split('T')[0]]. *)
Definition initial (today : string) : t :=
  {| id := None; brand := Some ""; type := EquipmentType.SPEAKER;
     model := Some ""; costPrice := 0; shippingCost := 0;
     sellingPrice := 0; date := today; note := None |}.
End Form.

(** A stored record seen as form state ([setFormData(item)], line 127). *)
Definition formOfItem (item : SaleItem) : Form.t :=
  {| Form.id := Some (id item); Form.brand := Some (brand item);
     Form.type := type item; Form.model := Some (model item);
     Form.costPrice := costPrice item;
     Form.shippingCost := shippingCost item;
     Form.sellingPrice := sellingPrice item; Form.date := date item;
     Form.note := note item |}.

Record AppState := mkAppState {
  sales : list SaleItem;
  currentView : View;
  editingId : option string;
  selectedMonth : string;
  formData : Form.t
}.

(** The record [{ ...formData, id: newId }] once the guard has found the
    brand [b] and the model [m]: the form's own [id], if any, is
    overwritten. *)
Definition withId (form : Form.t) (b m : string) (newId : string) : SaleItem :=
  {| id := newId; brand := b; type := Form.type form; model := m;
     costPrice := Form.costPrice form;
     shippingCost := Form.shippingCost form;
     sellingPrice := Form.sellingPrice form;
     date := Form.date form; note := Form.note form |}.

(** The updater of line 107:
    [prev.map(item => item.id === editingId ? {...formData, id: editingId} : item)] *)
Definition updateSales (editing : string) (replacement : SaleItem)
    (prev : list SaleItem) : list SaleItem :=
  List.map (fun item => if String.eqb (id item) editing then replacement else item)
    prev.

(** The updater of line 113: [[newItem, ...prev]] *)
Definition createSales (newItem : SaleItem) (prev : list SaleItem)
  : list SaleItem :=
  newItem :: prev.

(** The updater of line 122: [prev.filter(item => item.id !== id)] *)
Definition deleteSales (target : string) (prev : list SaleItem)
  : list SaleItem :=
  List.filter (fun item => negb (String.eqb (id item) target)) prev.

(** [resetForm] (lines 132-143) *)
Definition resetForm (today : string) (st : AppState) : AppState :=
  {| sales := sales st; currentView := currentView st; editingId := None;
     selectedMonth := selectedMonth st; formData := Form.initial today |}.

(** [!s] for an optional string: absent or empty. *)
Definition falsy (s : option string) : bool :=
  match s with
  | None => true
  | Some v => String.eqb v ""
  end.

(** [handleSubmit] (lines 102-118). [uuid] is the value of
    [crypto.randomUUID()], [today] the date [resetForm] reads. Past the
    guard of line 104 the brand and the model are present. *)
Definition handleSubmit (uuid today : string) (st : AppState) : AppState :=
  if falsy (Form.brand (formData st)) || falsy (Form.model (formData st))
  then st
  else
    match Form.brand (formData st), Form.model (formData st) with
    | Some b, Some m =>
        let created :=
          createSales (withId (formData st) b m uuid) (sales st) in
        let sales' :=
          match editingId st with
          | Some editing =>
              if String.eqb editing "" then created
              else updateSales editing (withId (formData st) b m editing)
                     (sales st)
          | None => created
          end in
        {| sales := sales'; currentView := LIST; editingId := None;
           selectedMonth := selectedMonth st;
           formData := Form.initial today |}
    | _, _ => st
    end.

(** [handleDelete] (lines 120-124); [confirmed] is the answer of
    [window.confirm]. *)
Definition handleDelete (target : string) (confirmed : bool) (st : AppState)
  : AppState :=
  if confirmed
  then {| sales := deleteSales target (sales st);
          currentView := currentView st; editingId := editingId st;
          selectedMonth := selectedMonth st; formData := formData st |}
  else st.

(** [handleEdit] (lines 126-130) *)
Definition handleEdit (item : SaleItem) (st : AppState) : AppState :=
  {| sales := sales st; currentView := FORM; editingId := Some (id item);
     selectedMonth := selectedMonth st; formData := formOfItem item |}.

(** [s.includes(sub)] *)
Fixpoint includes (s sub : string) : bool :=
  startsWith s sub ||
  match s with
  | EmptyString => false
  | String _ s' => includes s' sub
  end.

Section InputChange.
(** [Number(value)], the host's conversion of the text of an input
    element; the model covers the texts whose number is an integer. *)
Variable Number : string -> Z.

Definition setNumber (field : string) (n : Z) (form : Form.t) : Form.t :=
  if String.eqb field "costPrice" then
    {| Form.id := Form.id form; Form.brand := Form.brand form;
       Form.type := Form.type form; Form.model := Form.model form;
       Form.costPrice := n; Form.shippingCost := Form.shippingCost form;
       Form.sellingPrice := Form.sellingPrice form;
       Form.date := Form.date form; Form.note := Form.note form |}
  else if String.eqb field "shippingCost" then
    {| Form.id := Form.id form; Form.brand := Form.brand form;
       Form.type := Form.type form; Form.model := Form.model form;
       Form.costPrice := Form.costPrice form; Form.shippingCost := n;
       Form.sellingPrice := Form.sellingPrice form;
       Form.date := Form.date form; Form.note := Form.note form |}
  else if String.eqb field "sellingPrice" then
    {| Form.id := Form.id form; Form.brand := Form.brand form;
       Form.type := Form.type form; Form.model := Form.model form;
       Form.costPrice := Form.costPrice form;
       Form.shippingCost := Form.shippingCost form;
       Form.sellingPrice := n;
       Form.date := Form.date form; Form.note := Form.note form |}
  else form.

Definition setText (field : string) (v : string) (form : Form.t) : Form.t :=
  if String.eqb field "brand" then
    {| Form.id := Form.id form; Form.brand := Some v;
       Form.type := Form.type form; Form.model := Form.model form;
       Form.costPrice := Form.costPrice form;
       Form.shippingCost := Form.shippingCost form;
       Form.sellingPrice := Form.sellingPrice form;
       Form.date := Form.date form; Form.note := Form.note form |}
  else if String.eqb field "model" then
    {| Form.id := Form.id form; Form.brand := Form.brand form;
       Form.type := Form.type form; Form.model := Some v;
       Form.costPrice := Form.costPrice form;
       Form.shippingCost := Form.shippingCost form;
       Form.sellingPrice := Form.sellingPrice form;
       Form.date := Form.date form; Form.note := Form.note form |}
  else if String.eqb field "type" then
    {| Form.id := Form.id form; Form.brand := Form.brand form;
       Form.type := v; Form.model := Form.model form;
       Form.costPrice := Form.costPrice form;
       Form.shippingCost := Form.shippingCost form;
       Form.sellingPrice := Form.sellingPrice form;
       Form.date := Form.date form; Form.note := Form.note form |}
  else if String.eqb field "date" then
    {| Form.id := Form.id form; Form.brand := Form.brand form;
       Form.type := Form.type form; Form.model := Form.model form;
       Form.costPrice := Form.costPrice form;
       Form.shippingCost := Form.shippingCost form;
       Form.sellingPrice := Form.sellingPrice form;
       Form.date := v; Form.note := Form.note form |}
  else if String.eqb field "note" then
    {| Form.id := Form.id form; Form.brand := Form.brand form;
       Form.type := Form.type form; Form.model := Form.model form;
       Form.costPrice := Form.costPrice form;
       Form.shippingCost := Form.shippingCost form;
       Form.sellingPrice := Form.sellingPrice form;
       Form.date := Form.date form; Form.note := Some v |}
  else if String.eqb field "id" then
    {| Form.id := Some v; Form.brand := Form.brand form;
       Form.type := Form.type form; Form.model := Form.model form;
       Form.costPrice := Form.costPrice form;
       Form.shippingCost := Form.shippingCost form;
       Form.sellingPrice := Form.sellingPrice form;
       Form.date := Form.date form; Form.note := Form.note form |}
  else form.

(** [handleInputChange] (lines 94-100): the field named by the input is
    overwritten, with [Number(value)] when the name contains [Price] or
    [Cost]. The inputs of the form are named [date], [type], [brand],
    [model], [costPrice], [shippingCost] and [sellingPrice]; a name that is
    no field of [SaleItem] would add a property that nothing reads, and
    leaves the modelled form as it is. *)
Definition handleInputChange (field text : string) (st : AppState)
  : AppState :=
  {| sales := sales st; currentView := currentView st;
     editingId := editingId st; selectedMonth := selectedMonth st;
     formData :=
       if includes field "Price" || includes field "Cost"
       then setNumber field (Number text) (formData st)
       else setText field text (formData st) |}.
End InputChange.

(** ** Record store ([src/services/storage.ts]) *)

Definition STORAGE_KEY : string := "audio_sales_data_v1".

Section Storage.
(** The host's JSON codec on lists of records. [JSON_parse] is [None]
    where [JSON.parse] throws. *)
Variable JSON_stringify : list SaleItem -> string.
Variable JSON_parse : string -> option (list SaleItem).
(** Whether [localStorage] takes a write (it throws when the quota is
    exceeded or storage is disabled). *)
Variable accepts : gmap string string -> string -> string -> bool.

Definition setItem (key text : string) (store : gmap string string)
  : option (gmap string string) :=
  if accepts store key text then Some (<[key := text]> store) else None.

Definition getItem (key : string) (store : gmap string string)
  : option string :=
  store !! key.

(** [saveSales] (lines 31-37): a failed write is caught and logged, the
    store keeps what it had. *)
Definition saveSales (items : list SaleItem) (store : gmap string string)
  : gmap string string :=
  match setItem STORAGE_KEY (JSON_stringify items) store with
  | Some store' => store'
  | None => store
  end.

(** [loadSales] (lines 39-47): [data ? JSON.parse(data) : []], and [[]]
    when parsing throws. *)
Definition loadSales (store : gmap string string) : list SaleItem :=
  match getItem STORAGE_KEY store with
  | Some data =>
      if String.eqb data "" then []
      else match JSON_parse data with
           | Some items => items
           | None => []
           end
  | None => []
  end.
End Storage.

(** ** A JSON codec for lists of records

    An executable instance of the codec [saveSales] and [loadSales] are
    parameterised by: the text [JSON.stringify] emits for an array of
    records (no white space, fields in the order of the interface, [note]
    left out when absent), and a reader of arrays of flat objects with
    string and integer members. *)
Module Json.


Definition hexDigit (n : N) : ascii :=
  ascii_of_N (if (n <? 10)%N then 48 + n else 87 + n).

(** The escapes of [QuoteJSONString] for one code unit. *)
Definition escapeChar (c : ascii) : string :=
  let n := N_of_ascii c in
  if (n =? 34)%N then "\" ++ String c ""
  else if (n =? 92)%N then "\\"
  else if (n =? 8)%N then "\b"
  else if (n =? 9)%N then "\t"
  else if (n =? 10)%N then "\n"
  else if (n =? 12)%N then "\f"
  else if (n =? 13)%N then "\r"
  else if (n <? 32)%N
       then "\u00" ++ String (hexDigit (n / 16)) (String (hexDigit (n mod 16)) "")
  else String c "".

Fixpoint escape (s : string) : string :=
  match s with
  | EmptyString => EmptyString
  | String c s' => escapeChar c ++ escape s'
  end.

Definition quote : string := String (ascii_of_N 34) "".

Definition printString (s : string) : string := quote ++ escape s ++ quote.

Definition printNumber (z : Z) : string := NilZero.string_of_int (Z.to_int z).

Definition printMember (key text : string) : string :=
  printString key ++ ":" ++ text.

Definition printItem (item : SaleItem) : string :=
  "{" ++ printMember "id" (printString (id item))
  ++ "," ++ printMember "brand" (printString (brand item))
  ++ "," ++ printMember "type" (printString (type item))
  ++ "," ++ printMember "model" (printString (model item))
  ++ "," ++ printMember "costPrice" (printNumber (costPrice item))
  ++ "," ++ printMember "shippingCost" (printNumber (shippingCost item))
  ++ "," ++ printMember "sellingPrice" (printNumber (sellingPrice item))
  ++ "," ++ printMember "date" (printString (date item))
  ++ match note item with
     | Some n => "," ++ printMember "note" (printString n)
     | None => ""
     end
  ++ "}".

Fixpoint printItems (items : list SaleItem) : string :=
  match items with
  | [] => ""
  | [item] => printItem item
  | item :: rest => printItem item ++ "," ++ printItems rest
  end.

Definition stringify (items : list SaleItem) : string :=
  "[" ++ printItems items ++ "]".

(** *** Reading *)

Definition isSpace (c : ascii) : bool :=
  let n := N_of_ascii c in
  (n =? 32)%N || (n =? 9)%N || (n =? 10)%N || (n =? 13)%N.

Fixpoint skipSpace (s : string) : string :=
  match s with
  | String c s' => if isSpace c then skipSpace s' else s
  | EmptyString => s
  end.

Definition isDigit (c : ascii) : bool :=
  let n := N_of_ascii c in (48 <=? n)%N && (n <=? 57)%N.

Definition hexValue (c : ascii) : option N :=
  let n := N_of_ascii c in
  if (48 <=? n)%N && (n <=? 57)%N then Some (n - 48)%N
  else if (97 <=? n)%N && (n <=? 102)%N then Some (n - 87)%N
  else if (65 <=? n)%N && (n <=? 70)%N then Some (n - 55)%N
  else None.

(** The code unit named by the four hexadecimal digits after [\u]; code
    units above 255 have no counterpart in this model of strings. *)
Definition readUnicode (s : string) : option (ascii * string) :=
  match s with
  | String a (String b (String c (String d rest))) =>
      match hexValue a, hexValue b, hexValue c, hexValue d with
      | Some 0%N, Some 0%N, Some x, Some y =>
          Some (ascii_of_N (16 * x + y), rest)
      | _, _, _, _ => None
      end
  | _ => None
  end.

(** The rest of a string literal after its opening quote. *)
Fixpoint readStringBody (fuel : nat) (s : string) : option (string * string) :=
  match fuel with
  | O => None
  | S fuel' =>
      match s with
      | EmptyString => None
      | String c s' =>
          let n := N_of_ascii c in
          if (n =? 34)%N then Some (EmptyString, s')
          else if (n <? 32)%N then None
          else if (n =? 92)%N then
            match s' with
            | EmptyString => None
            | String e s'' =>
                let m := N_of_ascii e in
                let continue (unit : ascii) (rest : string) :=
                  match readStringBody fuel' rest with
                  | Some (body, rest') => Some (String unit body, rest')
                  | None => None
                  end in
                if (m =? 34)%N then continue e s''
                else if (m =? 92)%N then continue e s''
                else if (m =? 47)%N then continue e s''
                else if (m =? 98)%N then continue (ascii_of_N 8) s''
                else if (m =? 116)%N then continue (ascii_of_N 9) s''
                else if (m =? 110)%N then continue (ascii_of_N 10) s''
                else if (m =? 102)%N then continue (ascii_of_N 12) s''
                else if (m =? 114)%N then continue (ascii_of_N 13) s''
                else if (m =? 117)%N then
                  match readUnicode s'' with
                  | Some (unit, rest) => continue unit rest
                  | None => None
                  end
                else None
            end
          else
            match readStringBody fuel' s' with
            | Some (body, rest) => Some (String c body, rest)
            | None => None
            end
      end
  end.

Definition readString (s : string) : option (string * string) :=
  match s with
  | String c s' =>
      if (N_of_ascii c =? 34)%N then readStringBody (String.length s') s'
      else None
  | EmptyString => None
  end.

Fixpoint spanDigits (s : string) : string * string :=
  match s with
  | String c s' =>
      if isDigit c
      then let '(digits, rest) := spanDigits s' in (String c digits, rest)
      else (EmptyString, s)
  | EmptyString => (EmptyString, s)
  end.

(** An integer literal: an optional minus sign and digits. *)
Definition readNumber (s : string) : option (Z * string) :=
  let '(sign, s1) :=
    match s with
    | String c s' => if (N_of_ascii c =? 45)%N then ("-", s') else ("", s)
    | EmptyString => ("", s)
    end in
  let '(digits, rest) := spanDigits s1 in
  match digits with
  | EmptyString => None
  | _ =>
      match NilZero.int_of_string (sign ++ digits) with
      | Some d => Some (Z.of_int d, rest)
      | None => None
      end
  end.

Inductive scalar :=
| SString (s : string)
| SNumber (z : Z).

Definition readScalar (s : string) : option (scalar * string) :=
  match readString s with
  | Some (v, rest) => Some (SString v, rest)
  | None =>
      match readNumber s with
      | Some (z, rest) => Some (SNumber z, rest)
      | None => None
      end
  end.

(** One [key : value] member. *)
Definition readMember (s : string) : option (string * scalar * string) :=
  match readString (skipSpace s) with
  | Some (key, rest) =>
      match skipSpace rest with
      | String c rest' =>
          if (N_of_ascii c =? 58)%N then
            match readScalar (skipSpace rest') with
            | Some (v, rest'') => Some (key, v, rest'')
            | None => None
            end
          else None
      | EmptyString => None
      end
  | None => None
  end.

(** The members of an object after its opening brace; a repeated key
    keeps its last value. *)
Fixpoint readMembers (fuel : nat) (s : string) (seen : gmap string scalar)
  : option (gmap string scalar * string) :=
  match fuel with
  | O => None
  | S fuel' =>
      match readMember s with
      | Some (key, v, rest) =>
          match skipSpace rest with
          | String c rest' =>
              if (N_of_ascii c =? 44)%N
              then readMembers fuel' rest' (<[key := v]> seen)
              else if (N_of_ascii c =? 125)%N
              then Some (<[key := v]> seen, rest')
              else None
          | EmptyString => None
          end
      | None => None
      end
  end.

Definition stringField (members : gmap string scalar) (key : string)
  : option string :=
  match members !! key with
  | Some (SString v) => Some v
  | _ => None
  end.

Definition numberField (members : gmap string scalar) (key : string)
  : option Z :=
  match members !! key with
  | Some (SNumber z) => Some z
  | _ => None
  end.

(** The members seen as a record; [None] when a declared field is missing
    or has the wrong kind, that is, when the object is no [SaleItem]. *)
Definition itemOfMembers (members : gmap string scalar) : option SaleItem :=
  i ← stringField members "id";
  b ← stringField members "brand";
  t ← stringField members "type";
  m ← stringField members "model";
  c ← numberField members "costPrice";
  sh ← numberField members "shippingCost";
  se ← numberField members "sellingPrice";
  d ← stringField members "date";
  match members !! "note" with
  | Some (SString n) => Some (mkSaleItem i b t m c sh se d (Some n))
  | Some (SNumber _) => None
  | None => Some (mkSaleItem i b t m c sh se d None)
  end.

Definition readItem (s : string) : option (SaleItem * string) :=
  match skipSpace s with
  | String c rest =>
      if (N_of_ascii c =? 123)%N then
        match readMembers (String.length rest) rest ∅ with
        | Some (members, rest') =>
            match itemOfMembers members with
            | Some item => Some (item, rest')
            | None => None
            end
        | None => None
        end
      else None
  | EmptyString => None
  end.

(** The elements of an array after its first one was announced. *)
Fixpoint readItems (fuel : nat) (s : string) : option (list SaleItem * string) :=
  match fuel with
  | O => None
  | S fuel' =>
      match readItem s with
      | Some (item, rest) =>
          match skipSpace rest with
          | String c rest' =>
              if (N_of_ascii c =? 44)%N then
                match readItems fuel' rest' with
                | Some (items, rest'') => Some (item :: items, rest'')
                | None => None
                end
              else if (N_of_ascii c =? 93)%N then Some ([item], rest')
              else None
          | EmptyString => None
          end
      | None => None
      end
  end.

Definition parse (s : string) : option (list SaleItem) :=
  match skipSpace s with
  | String c rest =>
      if (N_of_ascii c =? 91)%N then
        match skipSpace rest with
        | String d rest' =>
            if (N_of_ascii d =? 93)%N
            then if String.eqb (skipSpace rest') "" then Some [] else None
            else
              match readItems (String.length rest) rest with
              | Some (items, rest'') =>
                  if String.eqb (skipSpace rest'') "" then Some items
                  else None
              | None => None
              end
        | EmptyString => None
        end
      else None
  | EmptyString => None
  end.
End Json.

(** ** Vocabulary of the specification *)

(** The sum of [f] over the records. *)
Fixpoint sumOver (f : SaleItem -> Z) (records : list SaleItem) : Z :=
  match records with
  | [] => 0
  | r :: rest => f r + sumOver f rest
  end.

(** The number of records whose [type] is [t]. *)
Fixpoint countOfType (t : string) (records : list SaleItem) : Z :=
  match records with
  | [] => 0
  | r :: rest =>
      (if String.eqb (type r) t then 1 else 0) + countOfType t rest
  end.

(** The month of a record: the first seven code units of its date. *)
Definition monthOf (r : SaleItem) : string := substring (date r) 0 7.

(** A record whose three amounts are non-negative. *)
Definition nonNegative (r : SaleItem) : Prop :=
  0 <= costPrice r /\ 0 <= shippingCost r /\ 0 <= sellingPrice r.

Definition nonNegativeForm (form : Form.t) : Prop :=
  0 <= Form.costPrice form /\ 0 <= Form.shippingCost form /\
  0 <= Form.sellingPrice form.

(** The sum of the magnitudes of the amounts of a record, and of all
    records. *)
Definition weight (r : SaleItem) : Z :=
  Z.abs (costPrice r) + Z.abs (shippingCost r) + Z.abs (sellingPrice r).

Definition magnitude (records : list SaleItem) : Z := sumOver weight records.

(** No addition of [stats] rounds: the magnitudes of all amounts together,
    and the number of records, stay within 2^53. *)
Definition exactRange (records : list SaleItem) : Prop :=
  magnitude records <= 2 ^ 53 /\ Z.of_nat (length records) <= 2 ^ 53.

(** Constraint validation of the form (lines 336-428): the browser fires
    the submit event, and with it [handleSubmit], only when every input
    meets its constraints, [required] on the date, the brand and the model
    and [min="0"] on the three amounts. *)
Definition submittable (form : Form.t) : bool :=
  negb (String.eqb (Form.date form) "") &&
  negb (falsy (Form.brand form)) && negb (falsy (Form.model form)) &&
  (0 <=? Form.costPrice form)%Z && (0 <=? Form.shippingCost form)%Z &&
  (0 <=? Form.sellingPrice form)%Z.

(** A submission of the form: a create (no record is being edited) or an
    update of the record [editing]. [uuid] is what [crypto.randomUUID()]
    returns if the handler calls it. *)
Inductive Operation :=
| Create (uuid : string) (form : Form.t)
| Update (editing uuid : string) (form : Form.t).

Definition formOf (op : Operation) : Form.t :=
  match op with
  | Create _ form => form
  | Update _ _ form => form
  end.

(** The state in which the form holds [form] and [editing] is the record
    being edited. *)
Definition withForm (editing : option string) (form : Form.t) (st : AppState)
  : AppState :=
  {| sales := sales st; currentView := FORM; editingId := editing;
     selectedMonth := selectedMonth st; formData := form |}.

(** Pressing the save button on the form: the submit handler runs when
    the form passes its validation, and nothing happens otherwise. *)
Definition submitForm (uuid today : string) (st : AppState) : AppState :=
  if submittable (formData st) then handleSubmit uuid today st else st.

Definition perform (today : string) (st : AppState) (op : Operation)
  : AppState :=
  match op with
  | Create uuid form => submitForm uuid today (withForm None form st)
  | Update editing uuid form =>
      submitForm uuid today (withForm (Some editing) form st)
  end.

Definition performAll (today : string) (ops : list Operation) (st : AppState)
  : AppState :=
  fold_left (perform today) ops st.

(** A string [s] has the prefix [p] when it is [p] followed by something. *)
Definition hasPrefix (p s : string) : Prop := exists rest, s = p ++ rest.

(** How often the record [r] occurs in a list. *)
Fixpoint occurrences (r : SaleItem) (l : list SaleItem) : nat :=
  match l with
  | [] => O
  | x :: l' => (if bool_decide (x = r) then 1 else 0)%nat + occurrences r l'
  end.

(** A record whose [type] is not the name of a property that [data]
    inherits from [Object.prototype]. *)
Definition ownKey (r : SaleItem) : Prop := type r ∉ objectPrototypeKeys.

(** The counter of a type that [n] records have: none when there is no such
    record. *)
Definition counted (n : Z) : option jsnum :=
  if (n =? 0)%Z then None else Some (Finite n).

(** [a] comes strictly after [b] in the order of code units, in which the
    [YYYY-MM] months are ordered as in the calendar. *)
Definition laterMonth (a b : string) : Prop := String.le b a /\ a <> b.

(** ** More of the component ([src/App.tsx]) *)

(** The profit of one record as the list view computes it (line 275):
    [item.sellingPrice - (item.costPrice + item.shippingCost)]. *)
Definition profit (item : SaleItem) : Z :=
  subDouble (sellingPrice item)
    (addDouble (costPrice item) (shippingCost item)).

(** [isProfitPositive] (line 276) *)
Definition isProfitPositive (item : SaleItem) : bool := (0 <? profit item)%Z.

(** [setCurrentView(view)] *)
Definition setCurrentView (view : View) (st : AppState) : AppState :=
  {| sales := sales st; currentView := view; editingId := editingId st;
     selectedMonth := selectedMonth st; formData := formData st |}.

(** [setSelectedMonth(e.target.value)] of the month filter (line 186) *)
Definition setSelectedMonth (month : string) (st : AppState) : AppState :=
  {| sales := sales st; currentView := currentView st;
     editingId := editingId st; selectedMonth := month;
     formData := formData st |}.

(** The add buttons (lines 267 and 465):
    [resetForm(); setCurrentView(View.FORM)]. *)
Definition openForm (today : string) (st : AppState) : AppState :=
  setCurrentView FORM (resetForm today st).

(** The cancel button of the form (line 442):
    [resetForm(); setCurrentView(View.LIST)]. *)
Definition cancelForm (today : string) (st : AppState) : AppState :=
  setCurrentView LIST (resetForm today st).

(** The state of the first render (lines 31-45), once the mount effect has
    put the loaded records into [sales]. *)
Definition initialState (today : string) (loaded : list SaleItem) : AppState :=
  {| sales := loaded; currentView := DASHBOARD; editingId := None;
     selectedMonth := "all"; formData := Form.initial today |}.

(** What the user can do. Each event carries the values the host hands to
    its handler. *)
Inductive Event :=
| InputChange (field text : string)
| Submit (uuid today : string)
| CancelForm (today : string)
| OpenForm (today : string)
| Edit (item : SaleItem)
| Delete (target : string) (confirmed : bool)
| ShowDashboard
| ShowList
| SelectMonth (month : string).

Section Events.
Variable Number : string -> Z.

(** The handler each event runs. *)
Definition dispatch (st : AppState) (ev : Event) : AppState :=
  match ev with
  | InputChange field text => handleInputChange Number field text st
  | Submit uuid today => handleSubmit uuid today st
  | CancelForm today => cancelForm today st
  | OpenForm today => openForm today st
  | Edit item => handleEdit item st
  | Delete target confirmed => handleDelete target confirmed st
  | ShowDashboard => setCurrentView DASHBOARD st
  | ShowList => setCurrentView LIST st
  | SelectMonth month => setSelectedMonth month st
  end.

Definition dispatchAll (events : list Event) (st : AppState) : AppState :=
  fold_left dispatch events st.
End Events.

(** Where the markup offers each event: the form and its buttons are
    rendered in the form view only (line 331), the edit and delete buttons
    for the records of [filteredSales] in the list view only (lines 256 and
    274-299), the month filter on the dashboard (lines 175-193), the round
    add button outside the form view (lines 461-463), the add-first button in the
    empty list view (lines 262-271), and the navigation bar always. *)
Definition offered (st : AppState) (ev : Event) : Prop :=
  match ev with
  | InputChange _ _ | Submit _ _ | CancelForm _ => currentView st = FORM
  | OpenForm _ => currentView st <> FORM
  | Edit item =>
      currentView st = LIST /\
      item ∈ filteredSales (sales st) (selectedMonth st)
  | Delete target _ =>
      currentView st = LIST /\
      exists item, item ∈ filteredSales (sales st) (selectedMonth st) /\
                   id item = target
  | ShowDashboard | ShowList => True
  | SelectMonth month =>
      currentView st = DASHBOARD /\
      (month = "all" \/ month ∈ availableMonths (sales st))
  end.

(** A run of events, each offered in the state it is dispatched in. *)
Inductive offeredRun (Number : string -> Z) : AppState -> list Event -> Prop :=
| offeredRun_nil st : offeredRun Number st []
| offeredRun_cons st ev events :
    offered st ev ->
    offeredRun Number (dispatch Number st ev) events ->
    offeredRun Number st (ev :: events).

(** The ids of the records, in order. *)
Definition ids (records : list SaleItem) : list string := id <$> records.

(** The sum of [f] over a list of strings (months or types). *)
Fixpoint sumOverKeys (f : string -> Z) (keys : list string) : Z :=
  match keys with
  | [] => 0
  | k :: rest => f k + sumOverKeys f rest
  end.

(** The count a chart entry shows; [NaN] draws nothing. *)
Definition entryCount (e : ChartEntry) : Z :=
  match value e with
  | Finite z => z
  | NaN => 0
  end.

(** The component-wise sum of two summaries, in exact arithmetic. *)
Definition addStats (a b : SummaryStats) : SummaryStats :=
  {| totalCost := totalCost a + totalCost b;
     totalRevenue := totalRevenue a + totalRevenue b;
     totalProfit := totalProfit a + totalProfit b;
     count := count a + count b |}.

(** The share of the single record [r] in a summary, in exact
    arithmetic. *)
Definition statsOf (r : SaleItem) : SummaryStats :=
  {| totalCost := costPrice r + shippingCost r;
     totalRevenue := sellingPrice r;
     totalProfit := sellingPrice r - (costPrice r + shippingCost r);
     count := 1 |}.

(** While the form is open for an edit, the edited id is the id of a
    record of the list. *)
Definition editsExisting (st : AppState) : Prop :=
  currentView st = FORM ->
  forall editing, editingId st = Some editing ->
  exists item, item ∈ sales st /\ id item = editing.

(** * Properties *)

(** ** Doubles holding whole numbers *)

Section DoubleFacts.
Local Open Scope Z_scope.

Lemma roundMagnitude_large a :
  2 ^ 53 < a ->
  roundMagnitude a =
  roundedMantissa (a / 2 ^ (Z.log2 a - 52)) (a mod 2 ^ (Z.log2 a - 52))
    (2 ^ (Z.log2 a - 52 - 1)) * 2 ^ (Z.log2 a - 52).
Proof.
  intros Ha. unfold roundMagnitude.
  assert (E : (a <=? 2 ^ 53) = false) by (apply Z.leb_gt; exact Ha).
  rewrite E. reflexivity.
Qed.

Lemma roundMagnitude_small a : a <= 2 ^ 53 -> roundMagnitude a = a.
Proof.
  intros Ha. unfold roundMagnitude.
  assert (E : (a <=? 2 ^ 53) = true) by (apply Z.leb_le; exact Ha).
  now rewrite E.
Qed.

Lemma roundedMantissa_bounds q r half : q <= roundedMantissa q r half <= q + 1.
Proof.
  unfold roundedMantissa.
  destruct (r <? half); [lia|]. destruct (half <? r); [lia|].
  destruct (Z.even q); lia.
Qed.

Lemma roundedMantissa_mono q r1 r2 half :
  r1 <= r2 -> roundedMantissa q r1 half <= roundedMantissa q r2 half.
Proof.
  intros H. unfold roundedMantissa.
  destruct (Z.ltb_spec r1 half), (Z.ltb_spec r2 half),
           (Z.ltb_spec half r1), (Z.ltb_spec half r2), (Z.even q); lia.
Qed.

(** Above 2^53: the exponent, the significand and the low part. *)
Lemma binade a (T : Z) :
  T = 2 ^ 52 -> 2 * T < a ->
  let e := Z.log2 a - 52 in
  1 <= e /\ 0 < 2 ^ e /\
  T <= a / 2 ^ e < 2 * T /\
  a = a / 2 ^ e * 2 ^ e + a mod 2 ^ e /\ 0 <= a mod 2 ^ e < 2 ^ e.
Proof.
  intros HT Ha. cbn zeta.
  assert (H53 : 2 * T = 2 ^ 53) by (subst T; reflexivity).
  assert (Hpos : 0 < a) by (subst T; lia).
  pose proof (Z.log2_spec a Hpos) as [Hlo Hhi].
  assert (Hlog : 53 <= Z.log2 a).
  { apply Z.log2_le_pow2; [lia|]. rewrite <- H53. lia. }
  set (e := Z.log2 a - 52) in *.
  assert (He : 1 <= e) by lia.
  assert (Hp : 0 < 2 ^ e) by (apply Z.pow_pos_nonneg; lia).
  assert (Hl : 2 ^ Z.log2 a = T * 2 ^ e).
  { subst T. rewrite <- Z.pow_add_r by lia. f_equal. lia. }
  assert (Hh : 2 ^ Z.succ (Z.log2 a) = (2 * T) * 2 ^ e).
  { rewrite H53. rewrite <- Z.pow_add_r by lia. f_equal. lia. }
  pose proof (Z.div_mod a (2 ^ e) ltac:(lia)) as Hdm.
  pose proof (Z.mod_pos_bound a (2 ^ e) Hp) as Hm.
  clear HT H53 Hlog.
  split; [exact He|]. split; [exact Hp|]. split; [|split; [lia|exact Hm]].
  split.
  - apply Z.div_le_lower_bound; [exact Hp|]. rewrite Z.mul_comm. lia.
  - apply Z.div_lt_upper_bound; [exact Hp|]. rewrite Z.mul_comm. lia.
Qed.

Lemma roundMagnitude_mono a b :
  0 <= a <= b -> roundMagnitude a <= roundMagnitude b.
Proof.
  intros [Ha Hab].
  remember (2 ^ 52) as T eqn:HT.
  assert (H53 : 2 ^ 53 = 2 * T) by (subst T; reflexivity).
  assert (HTpos : 0 < T) by (subst T; reflexivity).
  destruct (Z_le_gt_dec b (2 * T)) as [Hb|Hb].
  { rewrite !roundMagnitude_small by lia. exact Hab. }
  destruct (binade b T HT ltac:(lia)) as (Heb & Hpb & Hqb & Hdmb & Hmb).
  rewrite (roundMagnitude_large b) by lia.
  pose proof (roundedMantissa_bounds (b / 2 ^ (Z.log2 b - 52))
                (b mod 2 ^ (Z.log2 b - 52)) (2 ^ (Z.log2 b - 52 - 1))) as Bb.
  set (eb := Z.log2 b - 52) in *.
  set (Pb := 2 ^ eb) in *. set (qb := b / Pb) in *.
  set (mb := roundedMantissa qb (b mod Pb) (2 ^ (eb - 1))) in *.
  assert (Hlowb : qb * Pb <= mb * Pb)
    by (apply Z.mul_le_mono_nonneg_r; lia).
  assert (HPb2 : 2 <= Pb).
  { unfold Pb. change 2 with (2 ^ 1) at 1. apply Z.pow_le_mono_r; lia. }
  assert (HTPb : 2 * T <= T * Pb) by nia.
  assert (Hqb' : T * Pb <= qb * Pb) by (apply Z.mul_le_mono_nonneg_r; lia).
  destruct (Z_le_gt_dec a (2 * T)) as [Ha53|Ha53].
  { rewrite roundMagnitude_small by lia. lia. }
  destruct (binade a T HT ltac:(lia)) as (Hea & Hpa & Hqa & Hdma & Hma).
  rewrite (roundMagnitude_large a) by lia.
  pose proof (roundedMantissa_bounds (a / 2 ^ (Z.log2 a - 52))
                (a mod 2 ^ (Z.log2 a - 52)) (2 ^ (Z.log2 a - 52 - 1))) as Ba.
  assert (Hlog : Z.log2 a <= Z.log2 b) by (apply Z.log2_le_mono; lia).
  destruct (Z.eq_dec (Z.log2 a) (Z.log2 b)) as [Elog|Nlog].
  - (* same binade *)
    rewrite Elog in *. fold eb in Hea, Hpa, Hqa, Hdma, Hma, Ba |- *.
    fold Pb in Hpa, Hqa, Hdma, Hma, Ba |- *.
    set (qa := a / Pb) in *.
    assert (Hq : qa <= qb) by (apply Z.div_le_mono; lia).
    destruct (Z.eq_dec qa qb) as [Eq|Nq].
    + apply Z.mul_le_mono_nonneg_r; [lia|].
      rewrite Eq. apply roundedMantissa_mono.
      rewrite Eq in Hdma. lia.
    + transitivity ((qa + 1) * Pb).
      * apply Z.mul_le_mono_nonneg_r; lia.
      * transitivity (qb * Pb); [|exact Hlowb].
        apply Z.mul_le_mono_nonneg_r; lia.
  - (* a in a lower binade *)
    set (ea := Z.log2 a - 52) in *.
    set (Pa := 2 ^ ea) in *. set (qa := a / Pa) in *.
    assert (Hpow : 2 * Pa <= Pb).
    { unfold Pa, Pb. replace (2 * 2 ^ ea) with (2 ^ (ea + 1))
        by (rewrite Z.pow_add_r by lia; lia).
      apply Z.pow_le_mono_r; unfold ea, eb; lia. }
    transitivity ((qa + 1) * Pa).
    { apply Z.mul_le_mono_nonneg_r; lia. }
    transitivity ((2 * T) * Pa).
    { apply Z.mul_le_mono_nonneg_r; lia. }
    transitivity (T * Pb).
    { replace (2 * T * Pa) with (T * (2 * Pa)) by ring.
      apply Z.mul_le_mono_nonneg_l; lia. }
    lia.
Qed.

Lemma roundMagnitude_scaled (m e : Z) :
  2 ^ 52 <= m < 2 ^ 53 -> 0 <= e ->
  roundMagnitude (m * 2 ^ e) = m * 2 ^ e.
Proof.
  intros Hm He.
  destruct (Z_le_gt_dec (m * 2 ^ e) (2 ^ 53)) as [Hs|Hl].
  { now apply roundMagnitude_small. }
  assert (Hmpos : 0 < m) by (assert (0 < 2 ^ 52) by reflexivity; lia).
  assert (Hlog : Z.log2 (m * 2 ^ e) - 52 = e).
  { rewrite Z.log2_mul_pow2 by lia.
    rewrite (Z.log2_unique m 52); [lia | lia |].
    change (2 ^ Z.succ 52) with (2 ^ 53). lia. }
  assert (Hp : 0 < 2 ^ e) by (apply Z.pow_pos_nonneg; lia).
  assert (He1 : 1 <= e).
  { destruct (Z.eq_dec e 0) as [->|]; [|lia].
    rewrite Z.pow_0_r, Z.mul_1_r in Hl. lia. }
  rewrite roundMagnitude_large by lia. rewrite Hlog.
  rewrite Z.div_mul by lia. rewrite Z.mod_mul by lia.
  unfold roundedMantissa.
  assert (Hh : 0 < 2 ^ (e - 1)) by (apply Z.pow_pos_nonneg; lia).
  assert (E : (0 <? 2 ^ (e - 1)) = true) by (apply Z.ltb_lt; exact Hh).
  now rewrite E.
Qed.

Lemma roundMagnitude_idem a :
  0 <= a -> roundMagnitude (roundMagnitude a) = roundMagnitude a.
Proof.
  intros Ha.
  destruct (Z_le_gt_dec a (2 ^ 53)) as [Hs|Hl].
  { rewrite (roundMagnitude_small a Hs). now apply roundMagnitude_small. }
  remember (2 ^ 52) as T eqn:HT.
  assert (H53 : 2 ^ 53 = 2 * T) by (subst T; reflexivity).
  destruct (binade a T HT ltac:(lia)) as (He & Hp & Hq & Hdm & Hmod).
  rewrite (roundMagnitude_large a) by lia.
  pose proof (roundedMantissa_bounds (a / 2 ^ (Z.log2 a - 52))
                (a mod 2 ^ (Z.log2 a - 52)) (2 ^ (Z.log2 a - 52 - 1))) as B.
  set (e := Z.log2 a - 52) in *.
  set (m := roundedMantissa (a / 2 ^ e) (a mod 2 ^ e) (2 ^ (e - 1))) in *.
  destruct (Z.eq_dec m (2 * T)) as [Em|Nm].
  - rewrite Em.
    replace (2 * T * 2 ^ e) with (T * 2 ^ (e + 1))
      by (rewrite Z.pow_add_r by lia; ring).
    apply roundMagnitude_scaled; [|lia].
    subst T. split; [lia | reflexivity].
  - apply roundMagnitude_scaled; [|lia]. rewrite <- HT, H53. lia.
Qed.

Lemma roundMagnitude_0 : roundMagnitude 0 = 0.
Proof. reflexivity. Qed.

Lemma roundDouble_nonneg z : 0 <= z -> roundDouble z = roundMagnitude z.
Proof.
  intros Hz. unfold roundDouble.
  destruct (Z.eq_dec z 0) as [->|Hne]; [reflexivity|].
  rewrite Z.abs_eq by lia. rewrite Z.sgn_pos by lia. lia.
Qed.

Lemma roundDouble_exact z : Z.abs z <= 2 ^ 53 -> roundDouble z = z.
Proof.
  intros H. unfold roundDouble. rewrite roundMagnitude_small by exact H.
  rewrite Z.mul_comm. apply Z.abs_sgn.
Qed.

Lemma roundDouble_mono a b : 0 <= a <= b -> roundDouble a <= roundDouble b.
Proof.
  intros H. rewrite !roundDouble_nonneg by lia. now apply roundMagnitude_mono.
Qed.

Lemma roundDouble_pos z : 0 <= z -> 0 <= roundDouble z.
Proof.
  intros Hz. rewrite roundDouble_nonneg by exact Hz.
  rewrite <- roundMagnitude_0 at 1. apply roundMagnitude_mono. lia.
Qed.

Lemma roundDouble_idem z :
  0 <= z -> roundDouble (roundDouble z) = roundDouble z.
Proof.
  intros Hz. pose proof (roundDouble_pos z Hz) as Hp.
  rewrite (roundDouble_nonneg _ Hp). rewrite (roundDouble_nonneg z Hz).
  now apply roundMagnitude_idem.
Qed.

End DoubleFacts.

Lemma addDouble_exact (a b : Z) :
  Z.abs a + Z.abs b <= 2 ^ 53 -> addDouble a b = a + b.
Proof. intros H. apply roundDouble_exact. lia. Qed.

Lemma subDouble_exact (a b : Z) :
  Z.abs a + Z.abs b <= 2 ^ 53 -> subDouble a b = a - b.
Proof. intros H. apply roundDouble_exact. lia. Qed.

(** Above 2^53 a sum is rounded: the odd number 2^53 + 1 is no double, and
    a tie goes to the even significand. *)
Example addDouble_rounds :
  addDouble (2 ^ 53) 1 = 2 ^ 53 /\ addDouble (2 ^ 53 + 2) 1 = 2 ^ 53 + 4.
Proof. vm_compute. split; reflexivity. Qed.

(** The model agrees with the machine's doubles, on roundings below, at and
    above a tie in several binades, and on sums and differences of
    doubles. *)
Example roundDouble_machine :
  forallb agreesOnRound
    [ 0; 1; 2 ^ 53; 2 ^ 53 + 1; 2 ^ 53 + 2; 2 ^ 53 + 3; 2 ^ 54 - 1;
      2 ^ 54 + 1; 2 ^ 54 + 2; 2 ^ 54 + 3; 2 ^ 54 + 6; 2 ^ 60 + 127;
      2 ^ 60 + 128; 2 ^ 60 + 129; 2 ^ 60 + 384; 2 ^ 62 + 511; 2 ^ 62 + 512;
      2 ^ 62 + 513; 2 ^ 62 + 1536; 123456789012345678; 2 ^ 63 - 1025 ]
  = true.
Proof. vm_compute. reflexivity. Qed.

Example addDouble_machine :
  forallb agreesOnAdd
    [ (1000, 100); (2 ^ 53, 1); (1, 2 ^ 53); (2 ^ 53 + 2, 1);
      (2 ^ 53 + 2, 3); (2 ^ 54, 2); (2 ^ 54 + 4, 2); (2 ^ 54 + 4, 6);
      (2 ^ 60, 12345); (2 ^ 62, 2 ^ 62 - 2 ^ 10); (2 ^ 53 - 1, 2 ^ 53 - 1) ]
  = true.
Proof. vm_compute. reflexivity. Qed.

Example subDouble_machine :
  forallb agreesOnSub
    [ (1500, 1100); (2 ^ 54, 1); (2 ^ 54, 3); (2 ^ 55, 1); (2 ^ 55, 2);
      (2 ^ 55, 6); (2 ^ 62, 2 ^ 53 + 2); (2 ^ 53 + 2, 2 ^ 53) ]
  = true.
Proof. vm_compute. reflexivity. Qed.

(** ** Summary statistics *)

Lemma weight_nonneg (r : SaleItem) : 0 <= weight r.
Proof. unfold weight. lia. Qed.

Lemma magnitude_nonneg (R : list SaleItem) : 0 <= magnitude R.
Proof.
  unfold magnitude. induction R as [|r R IH]; cbn [sumOver]; [lia|].
  pose proof (weight_nonneg r). lia.
Qed.

(** As long as the running totals and the amounts still to come stay within
    2^53, the reducer adds exactly. *)
Lemma stats_fold (R : list SaleItem) (acc : SummaryStats) :
  Z.abs (totalCost acc) + magnitude R <= 2 ^ 53 ->
  Z.abs (totalRevenue acc) + magnitude R <= 2 ^ 53 ->
  Z.abs (totalProfit acc) + magnitude R <= 2 ^ 53 ->
  Z.abs (count acc) + Z.of_nat (length R) <= 2 ^ 53 ->
  fold_left stats_step R acc =
  {| totalCost := totalCost acc + sumOver (fun r => costPrice r + shippingCost r) R;
     totalRevenue := totalRevenue acc + sumOver sellingPrice R;
     totalProfit := totalProfit acc +
       (sumOver sellingPrice R - sumOver (fun r => costPrice r + shippingCost r) R);
     count := count acc + Z.of_nat (length R) |}.
Proof.
  revert acc. induction R as [|r R IH]; intros acc Hc Hr Hp Hn.
  - destruct acc; simpl. f_equal; lia.
  - unfold magnitude in Hc, Hr, Hp. cbn [sumOver] in Hc, Hr, Hp.
    fold (magnitude R) in Hc, Hr, Hp.
    pose proof (magnitude_nonneg R) as HR.
    cbn [length] in Hn. rewrite Nat2Z.inj_succ in Hn.
    unfold weight in Hc, Hr, Hp.
    assert (Ecost : addDouble (costPrice r) (shippingCost r)
                    = costPrice r + shippingCost r)
      by (apply addDouble_exact; lia).
    assert (Eprofit : subDouble (sellingPrice r)
                        (costPrice r + shippingCost r)
                      = sellingPrice r - (costPrice r + shippingCost r))
      by (apply subDouble_exact; lia).
    assert (Estep : stats_step acc r =
      {| totalCost := totalCost acc + (costPrice r + shippingCost r);
         totalRevenue := totalRevenue acc + sellingPrice r;
         totalProfit := totalProfit acc
                        + (sellingPrice r - (costPrice r + shippingCost r));
         count := count acc + 1 |}).
    { unfold stats_step. cbn zeta. rewrite Ecost, Eprofit.
      f_equal; apply addDouble_exact; lia. }
    cbn [fold_left]. rewrite Estep.
    rewrite IH by (cbn [totalCost totalRevenue totalProfit count]; lia).
    cbn [totalCost totalRevenue totalProfit count sumOver length].
    f_equal; lia.
Qed.

(** C1, for amounts within the range in which doubles add exactly (the
    magnitudes of all amounts add up to at most 2^53): [stats] of the list
    has [totalCost] the sum of [costPrice + shippingCost], [totalRevenue]
    the sum of [sellingPrice], [totalProfit] equal to
    [totalRevenue - totalCost] and [count] the length of the list; on the
    empty list all four are zero. *)
Theorem stats_totals (R : list SaleItem) :
  exactRange R ->
  totalCost (stats R) = sumOver (fun r => costPrice r + shippingCost r) R /\
  totalRevenue (stats R) = sumOver sellingPrice R /\
  totalProfit (stats R) = totalRevenue (stats R) - totalCost (stats R) /\
  count (stats R) = Z.of_nat (length R) /\
  stats [] =
    {| totalCost := 0; totalRevenue := 0; totalProfit := 0; count := 0 |}.
Proof.
  intros [Hm Hn]. unfold stats.
  rewrite stats_fold by (cbn [totalCost totalRevenue totalProfit count]; lia).
  cbn [totalCost totalRevenue totalProfit count].
  repeat split; lia.
Qed.

Lemma stats_totals_witness :
  let R :=
    [ mkSaleItem "1" "Sony" "Speaker" "X1" 1000 100 1500 "2024-01-15" None;
      mkSaleItem "2" "Bose" "Speaker" "B2" 500 50 900 "2024-02-20" None ] in
  totalCost (stats R) = sumOver (fun r => costPrice r + shippingCost r) R /\
  totalRevenue (stats R) = sumOver sellingPrice R /\
  totalProfit (stats R) = totalRevenue (stats R) - totalCost (stats R) /\
  count (stats R) = Z.of_nat (length R) /\
  stats [] =
    {| totalCost := 0; totalRevenue := 0; totalProfit := 0; count := 0 |}.
Proof.
  cbn zeta. apply stats_totals. split; vm_compute; discriminate.
Defined.

(** C1 as stated fails above 2^53, where doubles round: with a cost of
    2^53, a sale of 2^53 + 2 and a cost of 1, [totalCost] is 2^53 and not
    the sum 2^53 + 1, and [totalProfit], which the reducer accumulates on
    its own, is 1 where [totalRevenue - totalCost] is 2. *)
Lemma stats_rounds :
  let R :=
    [ mkSaleItem "1" "Sony" "Speaker" "X1" (2 ^ 53) 0 0 "2024-01-15" None;
      mkSaleItem "2" "Bose" "Speaker" "B2" 0 0 (2 ^ 53 + 2) "2024-01-20" None;
      mkSaleItem "3" "Denon" "Amplifier" "D3" 1 0 0 "2024-02-20" None ] in
  totalCost (stats R) <> sumOver (fun r => costPrice r + shippingCost r) R /\
  totalProfit (stats R) <> totalRevenue (stats R) - totalCost (stats R) /\
  totalProfit (stats R) = 1 /\
  totalRevenue (stats R) - totalCost (stats R) = 2.
Proof. cbn zeta. vm_compute. repeat split; discriminate. Qed.

(** The scenario of the specification: one record bought for 1000 with 100
    of shipping and sold for 1500. *)
Example stats_scenario :
  stats [mkSaleItem "1" "Sony" "Speaker" "X1" 1000 100 1500 "2024-01-15" None]
  = {| totalCost := 1100; totalRevenue := 1500; totalProfit := 400;
       count := 1 |}.
Proof. reflexivity. Qed.

(** ** Month filter *)

Lemma startsWith_hasPrefix (s p : string) :
  startsWith s p = true <-> hasPrefix p s.
Proof.
  revert s. induction p as [|c p IH]; intros s; simpl.
  - split; [intros _; exists s; reflexivity | reflexivity].
  - destruct s as [|d s].
    + split; [discriminate | intros [rest H]; discriminate H].
    + destruct (Ascii.eqb_spec d c) as [->|Hne].
      * rewrite IH. split; intros [rest H]; exists rest.
        -- simpl. now rewrite H.
        -- simpl in H. now inversion H.
      * split; [discriminate |].
        intros [rest H]. simpl in H. inversion H. contradiction.
Qed.

Lemma filter_all_true {A} (f : A -> bool) (l : list A) :
  (forall x, f x = true) -> List.filter f l = l.
Proof.
  intros Hf. induction l as [|x l IH]; simpl; [reflexivity|].
  now rewrite Hf, IH.
Qed.

Lemma filter_sublist {A} (f : A -> bool) (l : list A) :
  sublist (List.filter f l) l.
Proof.
  induction l as [|x l IH]; simpl; [constructor|].
  destruct (f x); now constructor.
Qed.

Lemma filter_occurrences (f : SaleItem -> bool) (l : list SaleItem) (x : SaleItem) :
  f x = true -> occurrences x (List.filter f l) = occurrences x l.
Proof.
  intros Hx. induction l as [|y l IH]; simpl; [reflexivity|].
  destruct (f y) eqn:Hy; simpl.
  - now rewrite IH.
  - rewrite IH. case_bool_decide as Heq; [subst; congruence | reflexivity].
Qed.

(** C2: with the sentinel [all] the filter returns the list itself;
    with any other month [m] it returns, in their original order, exactly
    the records whose date has the prefix [m]: every record of the result
    has the prefix, every record of the list is in the result or lacks the
    prefix, and a record with the prefix occurs as often as in the list. *)
Theorem filteredSales_partition (R : list SaleItem) (m : string) :
  (m = "all" -> filteredSales R m = R) /\
  (m <> "all" ->
     sublist (filteredSales R m) R /\
     Forall (fun r => hasPrefix m (date r)) (filteredSales R m) /\
     Forall (fun r => r ∈ filteredSales R m \/ ~ hasPrefix m (date r)) R /\
     (forall r, hasPrefix m (date r) ->
        occurrences r (filteredSales R m) = occurrences r R)).
Proof.
  unfold filteredSales. split.
  - intros ->. reflexivity.
  - intros Hm. apply (String.eqb_neq m "all") in Hm. rewrite Hm.
    split; [apply filter_sublist|]. split; [|split].
    + apply Forall_forall. intros r Hr.
      apply list_elem_of_In, filter_In in Hr as [_ Hr].
      now apply startsWith_hasPrefix.
    + apply Forall_forall. intros r Hr.
      destruct (startsWith (date r) m) eqn:Hp.
      * left. apply list_elem_of_In, filter_In. split; [|exact Hp].
        now apply list_elem_of_In.
      * right. intros H. apply startsWith_hasPrefix in H. congruence.
    + intros r Hr. apply filter_occurrences.
      now apply startsWith_hasPrefix.
Qed.

(** C10: the empty month keeps every record, since every date starts with
    the empty string. *)
Theorem filteredSales_empty_month (R : list SaleItem) :
  filteredSales R "" = R.
Proof.
  unfold filteredSales. simpl.
  apply filter_all_true. intros r. reflexivity.
Qed.

(** ** Category breakdown *)

(** The scenario of the specification: two records of type [Speaker]. *)
Example categoryData_scenario :
  categoryData
    [ mkSaleItem "1" "Sony" "Speaker" "X1" 1000 100 1500 "2024-01-15" None;
      mkSaleItem "2" "Bose" "Speaker" "B2" 500 50 900 "2024-01-20" None ]
  = [ mkChartEntry "Speaker" (Finite 2) ].
Proof. vm_compute. reflexivity. Qed.

Lemma countOfType_nonneg (t : string) (R : list SaleItem) :
  0 <= countOfType t R.
Proof.
  induction R as [|r R IH]; simpl; [lia|].
  destruct (String.eqb (type r) t); lia.
Qed.

Lemma categoryData_step_own (data : gmap string jsnum) (c : string -> Z)
    (r : SaleItem) :
  ownKey r ->
  (forall t, 0 <= c t) ->
  (forall t, data !! t = counted (c t)) ->
  forall t, categoryData_step data r !! t =
            counted (c t + if String.eqb (type r) t then 1 else 0).
Proof.
  intros Hown Hc Hdata t. unfold categoryData_step, getProp.
  assert (Hproto : String.eqb (type r) "__proto__" = false).
  { apply String.eqb_neq. intros E. apply Hown. rewrite E.
    unfold objectPrototypeKeys. set_solver. }
  rewrite (Hdata (type r)). unfold counted at 1 2.
  destruct (c (type r) =? 0)%Z eqn:E0.
  - rewrite bool_decide_eq_false_2 by exact Hown. simpl.
    unfold setProp. rewrite Hproto.
    destruct (String.eqb_spec (type r) t) as [<-|Hne].
    + rewrite lookup_insert_eq. apply Z.eqb_eq in E0. rewrite E0.
      reflexivity.
    + rewrite lookup_insert_ne by exact Hne. rewrite Z.add_0_r. apply Hdata.
  - simpl. rewrite E0. simpl. unfold setProp. rewrite Hproto.
    destruct (String.eqb_spec (type r) t) as [<-|Hne].
    + rewrite lookup_insert_eq. unfold counted.
      pose proof (Hc (type r)). apply Z.eqb_neq in E0.
      destruct (c (type r) + 1 =? 0)%Z eqn:E1; [lia | reflexivity].
    + rewrite lookup_insert_ne by exact Hne. rewrite Z.add_0_r. apply Hdata.
Qed.

Lemma categoryCounts_fold (R : list SaleItem) :
  Forall ownKey R ->
  forall (data : gmap string jsnum) (c : string -> Z),
    (forall t, 0 <= c t) ->
    (forall t, data !! t = counted (c t)) ->
    forall t, fold_left categoryData_step R data !! t =
              counted (c t + countOfType t R).
Proof.
  induction 1 as [|r R Hr HR IH]; intros data c Hc Hdata t.
  - simpl. rewrite Z.add_0_r. apply Hdata.
  - cbn [fold_left countOfType].
    rewrite (IH _ (fun t => c t + if String.eqb (type r) t then 1 else 0)).
    + f_equal. lia.
    + intros t'. pose proof (Hc t'). destruct (String.eqb (type r) t'); lia.
    + now apply categoryData_step_own.
Qed.

(** When no [type] collides with an inherited property name, each type
    that occurs is mapped to the number of its records, and no other type
    is mapped. *)
Lemma categoryCounts_own (R : list SaleItem) (t : string) :
  Forall ownKey R ->
  categoryCounts R !! t = counted (countOfType t R).
Proof.
  intros HR. unfold categoryCounts.
  rewrite (categoryCounts_fold R HR ∅ (fun _ => 0)); [reflexivity | lia |].
  intros t'. apply lookup_empty.
Qed.

(** C3, at a record whose [type] is [constructor]: [data.constructor] is
    inherited and truthy, so the first such record is counted by [++] on a
    function, which stores [NaN] where the claim has the count 1. *)
Theorem categoryData_inherited_key :
  categoryData
    [ mkSaleItem "1" "Sony" "constructor" "X1" 1000 100 1500 "2024-01-15" None ]
  = [ mkChartEntry "constructor" NaN ].
Proof. vm_compute. reflexivity. Qed.

(** Two such records are counted as one, and a [type] of [__proto__] is
    never listed. *)
Example categoryData_inherited_key_twice :
  categoryData
    [ mkSaleItem "1" "Sony" "constructor" "X1" 1000 100 1500 "2024-01-15" None;
      mkSaleItem "2" "Bose" "constructor" "B2" 500 50 900 "2024-01-20" None ]
  = [ mkChartEntry "constructor" (Finite 1) ].
Proof. vm_compute. reflexivity. Qed.

Example categoryData_proto :
  categoryData
    [ mkSaleItem "1" "Sony" "__proto__" "X1" 1000 100 1500 "2024-01-15" None ]
  = [].
Proof. vm_compute. reflexivity. Qed.

Lemma categoryData_own (R : list SaleItem) (t : string) (n : jsnum) :
  Forall ownKey R ->
  mkChartEntry t n ∈ categoryData R <->
  0 < countOfType t R /\ n = Finite (countOfType t R).
Proof.
  intros HR. unfold categoryData. rewrite list_elem_of_fmap.
  pose proof (categoryCounts_own R t HR) as Ht.
  pose proof (countOfType_nonneg t R) as Hge.
  unfold counted in Ht. split.
  - intros [[k v] [E Hkv]]. simpl in E. injection E as -> ->.
    apply elem_of_map_to_list in Hkv. rewrite Ht in Hkv.
    destruct (countOfType k R =? 0)%Z eqn:E0; [discriminate|].
    apply Z.eqb_neq in E0. injection Hkv as <-. split; [lia | reflexivity].
  - intros [Hpos ->]. exists (t, Finite (countOfType t R)).
    split; [reflexivity|]. apply elem_of_map_to_list. rewrite Ht.
    destruct (countOfType t R =? 0)%Z eqn:E0; [|reflexivity].
    apply Z.eqb_eq in E0. lia.
Qed.

(** ** Create, update and delete *)

(** C5: a submission whose brand or model is absent or empty changes
    nothing: the list of records and the rest of the state, the form
    included, stay as they were. *)
Theorem handleSubmit_rejects (uuid today : string) (st : AppState) :
  Form.brand (formData st) = None \/ Form.brand (formData st) = Some "" \/
  Form.model (formData st) = None \/ Form.model (formData st) = Some "" ->
  handleSubmit uuid today st = st.
Proof.
  intros H. unfold handleSubmit.
  destruct H as [H|[H|[H|H]]]; rewrite H; simpl;
    rewrite ?orb_true_r; reflexivity.
Qed.

Lemma handleSubmit_rejects_witness :
  handleSubmit "u1" "2024-03-01"
    (mkAppState [] FORM None "all"
       (Form.mk None (Some "") "Speaker" (Some "X") 10 1 20 "2024-03-01" None))
  = mkAppState [] FORM None "all"
       (Form.mk None (Some "") "Speaker" (Some "X") 10 1 20 "2024-03-01" None).
Proof.
  apply handleSubmit_rejects. right. left. reflexivity.
Defined.

(** A create with a brand and a model prepends the new record under the
    fresh id. *)
Lemma handleSubmit_create (uuid today b m : string) (st : AppState) :
  Form.brand (formData st) = Some b -> Form.model (formData st) = Some m ->
  b <> "" -> m <> "" -> editingId st = None ->
  sales (handleSubmit uuid today st)
  = createSales (withId (formData st) b m uuid) (sales st).
Proof.
  intros Hb Hm Hbne Hmne He. unfold handleSubmit. rewrite Hb, Hm, He. simpl.
  apply String.eqb_neq in Hbne, Hmne. rewrite Hbne, Hmne. reflexivity.
Qed.

(** An update with a brand and a model runs the updater of line 107. *)
Lemma handleSubmit_update (uuid today b m editing : string) (st : AppState) :
  Form.brand (formData st) = Some b -> Form.model (formData st) = Some m ->
  b <> "" -> m <> "" -> editingId st = Some editing -> editing <> "" ->
  sales (handleSubmit uuid today st)
  = updateSales editing (withId (formData st) b m editing) (sales st).
Proof.
  intros Hb Hm Hbne Hmne He Hene. unfold handleSubmit. rewrite Hb, Hm, He.
  simpl. apply String.eqb_neq in Hbne, Hmne, Hene.
  rewrite Hbne, Hmne, Hene. reflexivity.
Qed.

Lemma handleSubmit_guard (uuid today : string) (st : AppState) :
  falsy (Form.brand (formData st)) || falsy (Form.model (formData st)) = true ->
  handleSubmit uuid today st = st.
Proof. intros H. unfold handleSubmit. now rewrite H. Qed.




Lemma deleteSales_unchanged (target : string) (prev : list SaleItem) :
  (forall item, item ∈ prev -> id item <> target) ->
  deleteSales target prev = prev.
Proof.
  intros Hnone. unfold deleteSales. induction prev as [|x prev IH];
    [reflexivity|].
  simpl. assert (Hx : id x <> target) by (apply Hnone; now left).
  apply String.eqb_neq in Hx. rewrite Hx. simpl.
  now rewrite IH by (intros item Hin; apply Hnone; now right).
Qed.

(** C7: a confirmed delete leaves no record with the target id, keeps
    every other record, as often as it occurred and in the original order,
    and changes nothing when no record has the id. *)
Theorem handleDelete_removes (target : string) (st : AppState) :
  let next := sales (handleDelete target true st) in
  Forall (fun item => id item <> target) next /\
  sublist next (sales st) /\
  (forall item, id item <> target ->
     occurrences item next = occurrences item (sales st)) /\
  ((forall item, item ∈ sales st -> id item <> target) -> next = sales st).
Proof.
  cbn zeta. unfold handleDelete. cbn [sales]. unfold deleteSales.
  split; [|split; [|split]].
  - apply Forall_forall. intros item Hin.
    apply list_elem_of_In, filter_In in Hin as [_ Hne].
    apply negb_true_iff, String.eqb_neq in Hne. exact Hne.
  - apply filter_sublist.
  - intros item Hne. apply filter_occurrences.
    apply negb_true_iff, String.eqb_neq. exact Hne.
  - apply deleteSales_unchanged.
Qed.

(** A delete that the user does not confirm changes nothing. *)
Lemma handleDelete_declined (target : string) (st : AppState) :
  handleDelete target false st = st.
Proof. reflexivity. Qed.

(** ** Months on offer *)

Lemma Set_add_elem (seen : list string) (x y : string) :
  y ∈ Set_add seen x <-> y ∈ seen \/ y = x.
Proof.
  unfold Set_add. case_bool_decide as Hx.
  - split; [now left | intros [H| ->]; assumption].
  - rewrite elem_of_app, list_elem_of_singleton. reflexivity.
Qed.

Lemma Set_add_NoDup (seen : list string) (x : string) :
  NoDup seen -> NoDup (Set_add seen x).
Proof.
  intros Hnd. unfold Set_add. case_bool_decide as Hx; [exact Hnd|].
  apply NoDup_app. split; [exact Hnd|]. split.
  - intros y Hy Hyx. apply list_elem_of_singleton in Hyx. now subst.
  - apply NoDup_singleton.
Qed.

Lemma Set_fold_elem (l seen : list string) (y : string) :
  y ∈ fold_left Set_add l seen <-> y ∈ seen \/ y ∈ l.
Proof.
  revert seen. induction l as [|x l IH]; intros seen; simpl.
  - rewrite elem_of_nil. tauto.
  - rewrite IH, Set_add_elem, elem_of_cons. tauto.
Qed.

Lemma Set_fold_NoDup (l seen : list string) :
  NoDup seen -> NoDup (fold_left Set_add l seen).
Proof.
  revert seen. induction l as [|x l IH]; intros seen Hnd; simpl;
    [exact Hnd|].
  apply IH. now apply Set_add_NoDup.
Qed.

Lemma Set_from_elem (l : list string) (y : string) :
  y ∈ Set_from l <-> y ∈ l.
Proof.
  unfold Set_from. rewrite Set_fold_elem, elem_of_nil. tauto.
Qed.

Lemma Set_from_NoDup (l : list string) : NoDup (Set_from l).
Proof. apply Set_fold_NoDup. constructor. Qed.

Lemma sort_Permutation (l : list string) : sort l ≡ₚ l.
Proof. apply merge_sort_Permutation. Qed.

Lemma sort_ascending (l : list string) : Sorted String.le (sort l).
Proof. apply Sorted_merge_sort. apply _. Qed.

(** A list in descending order without repetition descends strictly. *)
Lemma descending_strict (l : list string) :
  Sorted (flip String.le) l -> NoDup l -> StronglySorted laterMonth l.
Proof.
  intros Hs Hnd. apply Sorted_StronglySorted in Hs; [|apply _].
  induction Hs as [|a l Hs IH Ha]; [constructor|].
  apply NoDup_cons in Hnd as [Hnotin Hnd].
  constructor; [now apply IH|].
  rewrite Forall_forall in Ha |- *. intros b Hb. split; [now apply Ha|].
  intros ->. contradiction.
Qed.

(** C8: the months on offer are the months of the records, each once, the
    latest first. *)
Theorem availableMonths_distinct_descending (R : list SaleItem) :
  (forall m, m ∈ availableMonths R <-> exists r, r ∈ R /\ monthOf r = m) /\
  NoDup (availableMonths R) /\
  StronglySorted laterMonth (availableMonths R).
Proof.
  unfold availableMonths.
  assert (Hnd : NoDup (reverse (sort (Set_from
            ((fun s => substring (date s) 0 7) <$> R))))).
  { rewrite reverse_Permutation, sort_Permutation. apply Set_from_NoDup. }
  split; [|split].
  - intros m. rewrite elem_of_reverse, sort_Permutation, Set_from_elem,
      list_elem_of_fmap.
    unfold monthOf. split; intros [r [H1 H2]]; exists r; split; auto.
  - exact Hnd.
  - apply descending_strict; [|exact Hnd].
    apply Sorted_reverse, sort_ascending.
Qed.

(** The scenario of the specification: two sales in February 2024 and one
    in January. *)
Example availableMonths_scenario :
  availableMonths
    [ mkSaleItem "1" "Sony" "Speaker" "X1" 1000 100 1500 "2024-02-01" None;
      mkSaleItem "2" "Bose" "Speaker" "B2" 500 50 900 "2024-01-10" None;
      mkSaleItem "3" "Denon" "Amplifier" "D3" 700 70 990 "2024-02-20" None ]
  = [ "2024-02"; "2024-01" ].
Proof. vm_compute. reflexivity. Qed.

(** ** Non-negative amounts *)

(** [handleInputChange] stores the number of the text as it is: nothing
    clamps an amount on its way into the form. *)
Lemma handleInputChange_costPrice (Number : string -> Z) (text : string)
    (st : AppState) :
  Form.costPrice (formData (handleInputChange Number "costPrice" text st))
  = Number text.
Proof. reflexivity. Qed.

Lemma withId_nonNegative (form : Form.t) (b m newId : string) :
  nonNegativeForm form -> nonNegative (withId form b m newId).
Proof. intros H. exact H. Qed.

Lemma updateSales_nonNegative (editing : string) (replacement : SaleItem)
    (prev : list SaleItem) :
  nonNegative replacement -> Forall nonNegative prev ->
  Forall nonNegative (updateSales editing replacement prev).
Proof.
  intros Hr Hprev. unfold updateSales. apply Forall_map.
  eapply Forall_impl; [exact Hprev|].
  intros item Hitem. simpl. now destruct (String.eqb (id item) editing).
Qed.

Lemma handleSubmit_nonNegative (uuid today : string) (st : AppState) :
  nonNegativeForm (formData st) -> Forall nonNegative (sales st) ->
  Forall nonNegative (sales (handleSubmit uuid today st)).
Proof.
  intros Hform Hsales. unfold handleSubmit.
  destruct (falsy (Form.brand (formData st)) ||
            falsy (Form.model (formData st))); [exact Hsales|].
  destruct (Form.brand (formData st)) as [b|]; [|exact Hsales].
  destruct (Form.model (formData st)) as [m|]; [|exact Hsales].
  cbn [sales].
  destruct (editingId st) as [editing|].
  - destruct (String.eqb editing "").
    + constructor; [now apply withId_nonNegative | exact Hsales].
    + apply updateSales_nonNegative; [now apply withId_nonNegative|].
      exact Hsales.
  - constructor; [now apply withId_nonNegative | exact Hsales].
Qed.

Lemma submittable_nonNegative (form : Form.t) :
  submittable form = true -> nonNegativeForm form.
Proof.
  unfold submittable, nonNegativeForm. intros H.
  repeat (apply andb_true_iff in H as [H ?]).
  repeat split; now apply Z.leb_le.
Qed.

Lemma submitForm_nonNegative (uuid today : string) (st : AppState) :
  Forall nonNegative (sales st) ->
  Forall nonNegative (sales (submitForm uuid today st)).
Proof.
  intros Hsales. unfold submitForm.
  destruct (submittable (formData st)) eqn:Hvalid; [|exact Hsales].
  apply handleSubmit_nonNegative; [|exact Hsales].
  now apply submittable_nonNegative.
Qed.

Lemma perform_nonNegative (today : string) (st : AppState) (op : Operation) :
  Forall nonNegative (sales st) ->
  Forall nonNegative (sales (perform today st op)).
Proof.
  intros Hsales.
  destruct op as [uuid form | editing uuid form]; cbn [perform];
    now apply submitForm_nonNegative.
Qed.

(** C9: whatever forms are submitted, in whatever order, as creates or as
    updates, a collection whose amounts are all non-negative stays so. The
    handlers store the amounts of the form as they are; a form with a
    negative amount does not pass the validation of its [min="0"] inputs,
    so its submit never reaches the handler. *)
Theorem performAll_nonNegative (today : string) (ops : list Operation)
    (st : AppState) :
  Forall nonNegative (sales st) ->
  Forall nonNegative (sales (performAll today ops st)).
Proof.
  revert st. unfold performAll.
  induction ops as [|op ops IH]; intros st Hsales; cbn [fold_left];
    [exact Hsales|].
  apply IH. now apply perform_nonNegative.
Qed.

Lemma performAll_nonNegative_witness :
  Forall nonNegative
    (sales (performAll "2024-03-01"
       [ Create "u1"
           (Form.mk None (Some "Sony") "Speaker" (Some "X1") 1000 100 1500
              "2024-01-15" None);
         Create "u2"
           (Form.mk None (Some "Bose") "Speaker" (Some "B2") (-1) 50 900
              "2024-02-20" None);
         Update "u1" "u3"
           (Form.mk (Some "u1") (Some "Sony") "Speaker" (Some "X1") 1000 120
              1600 "2024-01-15" None) ]
       (mkAppState
          [ mkSaleItem "a1" "Denon" "Amplifier" "D3" 700 70 990 "2024-02-20"
              None ]
          DASHBOARD None "all" (Form.initial "2024-03-01")))).
Proof.
  apply performAll_nonNegative.
  repeat constructor; simpl; lia.
Defined.

(** The check is the form's, not the handler's: called on a form that holds
    a negative cost, [handleSubmit] stores it, while the same form submitted
    through its validation changes nothing. *)
Example handleSubmit_does_not_check_amounts :
  let st :=
    mkAppState [] FORM None "all"
      (Form.mk None (Some "Sony") "Speaker" (Some "X1") (-1) 100 1500
         "2024-01-15" None) in
  costPrice <$> sales (handleSubmit "u1" "2024-03-01" st) = [-1] /\
  sales (submitForm "u1" "2024-03-01" st) = [].
Proof. cbn zeta. split; reflexivity. Qed.

(** ** Record store *)


(** A write the store refuses leaves what was stored. *)
Lemma saveSales_refused (JSON_stringify : list SaleItem -> string)
    (accepts : gmap string string -> string -> string -> bool)
    (R : list SaleItem) (store : gmap string string) :
  accepts store STORAGE_KEY (JSON_stringify R) = false ->
  saveSales JSON_stringify accepts R store = store.
Proof. intros H. unfold saveSales, setItem. now rewrite H. Qed.

(** Nothing stored, or an unreadable text, loads as the empty list. *)
Lemma loadSales_nothing (JSON_parse : string -> option (list SaleItem)) :
  loadSales JSON_parse ∅ = [].
Proof. reflexivity. Qed.

Lemma loadSales_unreadable (JSON_parse : string -> option (list SaleItem))
    (store : gmap string string) (data : string) :
  store !! STORAGE_KEY = Some data -> JSON_parse data = None ->
  loadSales JSON_parse store = [].
Proof.
  intros Hdata Hparse. unfold loadSales, getItem. rewrite Hdata, Hparse.
  now destruct (String.eqb data "").
Qed.


(** ** The codec reads back what it prints *)

Module JsonFacts.
Import Json.

Lemma append_nil (b : string) : "" ++ b = b.
Proof. reflexivity. Qed.

Lemma append_cons (c : ascii) (a b : string) :
  String c a ++ b = String c (a ++ b).
Proof. reflexivity. Qed.

Lemma length_append (a b : string) :
  String.length (a ++ b) = (String.length a + String.length b)%nat.
Proof.
  induction a as [|c a IH]; [reflexivity|].
  rewrite append_cons. simpl. now rewrite IH.
Qed.

Lemma append_assoc (a b c : string) : (a ++ b) ++ c = a ++ (b ++ c).
Proof.
  induction a as [|x a IH]; [reflexivity|].
  rewrite !append_cons. now rewrite IH.
Qed.

(** One escaped code unit is read back as that code unit. *)
Lemma readStringBody_escapeChar (c : ascii) (fuel : nat) (tail : string) :
  readStringBody (S fuel) (escapeChar c ++ tail) =
  match readStringBody fuel tail with
  | Some (body, rest) => Some (String c body, rest)
  | None => None
  end.
Proof.
  destruct c as [[|] [|] [|] [|] [|] [|] [|] [|]]; reflexivity.
Qed.

Lemma escapeChar_length (c : ascii) : (1 <= String.length (escapeChar c))%nat.
Proof.
  destruct c as [[|] [|] [|] [|] [|] [|] [|] [|]]; vm_compute; lia.
Qed.

Lemma escape_length (s : string) :
  (String.length s <= String.length (escape s))%nat.
Proof.
  induction s as [|c s IH]; simpl; [lia|].
  rewrite length_append. pose proof (escapeChar_length c). lia.
Qed.

Lemma readStringBody_escape (s : string) (fuel : nat) (rest : string) :
  (String.length s < fuel)%nat ->
  readStringBody fuel (escape s ++ quote ++ rest) = Some (s, rest).
Proof.
  revert fuel. induction s as [|c s IH]; intros fuel Hfuel.
  - destruct fuel as [|fuel]; [simpl in Hfuel; lia|]. reflexivity.
  - destruct fuel as [|fuel]; [simpl in Hfuel; lia|].
    cbn [escape]. rewrite append_assoc, readStringBody_escapeChar.
    rewrite IH by (simpl in Hfuel; lia). reflexivity.
Qed.

Lemma readString_printString (s rest : string) :
  readString (printString s ++ rest) = Some (s, rest).
Proof.
  unfold printString. rewrite !append_assoc. unfold quote at 1.
  rewrite append_cons, append_nil. unfold readString.
  change (N_of_ascii (ascii_of_N 34) =? 34)%N with true. cbv iota.
  apply readStringBody_escape.
  rewrite length_append. pose proof (escape_length s). simpl. lia.
Qed.

Lemma spanDigits_cons (c : ascii) (s : string) :
  isDigit c = true ->
  spanDigits (String c s) = (String c (spanDigits s).1, (spanDigits s).2).
Proof. intros H. simpl. rewrite H. now destruct (spanDigits s). Qed.

Lemma uint_head (u : Decimal.uint) :
  u <> Decimal.Nil ->
  exists c s, NilEmpty.string_of_uint u = String c s /\ isDigit c = true.
Proof.
  destruct u; [contradiction|..]; intros _; simpl; eexists _, _;
    (split; [reflexivity | reflexivity]).
Qed.

Lemma spanDigits_uint (u : Decimal.uint) (rest : string) :
  spanDigits rest = (EmptyString, rest) ->
  spanDigits (NilEmpty.string_of_uint u ++ rest)
  = (NilEmpty.string_of_uint u, rest).
Proof.
  intros Hrest. induction u; simpl NilEmpty.string_of_uint;
    [exact Hrest | ..];
    rewrite append_cons, spanDigits_cons by reflexivity;
    now rewrite IHu.
Qed.

Lemma isDigit_not_minus (c : ascii) :
  isDigit c = true -> (N_of_ascii c =? 45)%N = false.
Proof.
  unfold isDigit. intros H. apply andb_true_iff in H as [H _].
  apply N.leb_le in H. apply N.eqb_neq. lia.
Qed.

Lemma readNumber_unsigned (u : Decimal.uint) (rest : string) :
  u <> Decimal.Nil ->
  spanDigits rest = (EmptyString, rest) ->
  readNumber (NilEmpty.string_of_uint u ++ rest)
  = Some (Z.of_int (Decimal.Pos u), rest).
Proof.
  intros Hu Hrest.
  assert (Hisi : NilZero.int_of_string (NilEmpty.string_of_uint u)
                 = Some (Decimal.Pos u)).
  { rewrite <- (NilZero.isi (Decimal.Pos u)) by (intros [= E]; auto; discriminate).
    simpl. now destruct u. }
  destruct (uint_head u Hu) as (c & s & Hs & Hc).
  unfold readNumber.
  assert (Htext : NilEmpty.string_of_uint u ++ rest = String c (s ++ rest))
    by now rewrite Hs.
  rewrite Htext at 1. rewrite (isDigit_not_minus c Hc).
  rewrite spanDigits_uint by exact Hrest.
  rewrite append_nil, Hisi, Hs. reflexivity.
Qed.

Lemma readNumber_printNumber (z : Z) (rest : string) :
  spanDigits rest = (EmptyString, rest) ->
  readNumber (printNumber z ++ rest) = Some (z, rest).
Proof.
  intros Hrest. unfold printNumber.
  destruct z as [|p|p].
  - vm_compute (NilZero.string_of_int (Z.to_int 0)).
    change "0" with (NilEmpty.string_of_uint (Decimal.D0 Decimal.Nil)).
    rewrite readNumber_unsigned; [reflexivity | discriminate | exact Hrest].
  - pose proof (DecimalPos.Unsigned.to_uint_nonnil p) as Hp.
    change (Z.to_int (Z.pos p)) with (Decimal.Pos (Pos.to_uint p)).
    assert (E : NilZero.string_of_int (Decimal.Pos (Pos.to_uint p))
                = NilEmpty.string_of_uint (Pos.to_uint p)).
    { simpl. now destruct (Pos.to_uint p). }
    rewrite E, readNumber_unsigned by assumption.
    change (Decimal.Pos (Pos.to_uint p)) with (Z.to_int (Z.pos p)).
    now rewrite DecimalZ.of_to.
  - pose proof (DecimalPos.Unsigned.to_uint_nonnil p) as Hp.
    change (Z.to_int (Z.neg p)) with (Decimal.Neg (Pos.to_uint p)).
    assert (E : NilZero.string_of_int (Decimal.Neg (Pos.to_uint p))
                = String "-" (NilEmpty.string_of_uint (Pos.to_uint p))).
    { simpl. now destruct (Pos.to_uint p). }
    rewrite E, append_cons. unfold readNumber.
    change (N_of_ascii "-" =? 45)%N with true. cbv iota.
    rewrite spanDigits_uint by exact Hrest.
    destruct (uint_head _ Hp) as (c & s & Hs & Hc).
    change ("-" ++ NilEmpty.string_of_uint (Pos.to_uint p))
      with (String "-" (NilEmpty.string_of_uint (Pos.to_uint p))).
    rewrite <- E, NilZero.isi by (intros [= E']; auto; discriminate).
    change (Decimal.Neg (Pos.to_uint p)) with (Z.to_int (Z.neg p)).
    rewrite DecimalZ.of_to, Hs. reflexivity.
Qed.

Lemma append_char (c : ascii) (t : string) : String c "" ++ t = String c t.
Proof. reflexivity. Qed.

Lemma printString_head (s rest : string) :
  printString s ++ rest = String (ascii_of_N 34) (escape s ++ quote ++ rest).
Proof.
  unfold printString. rewrite !append_assoc. unfold quote at 1.
  now rewrite append_char.
Qed.

Lemma printNumber_head (z : Z) :
  exists c s, printNumber z = String c s /\
              (N_of_ascii c =? 34)%N = false /\ isSpace c = false.
Proof.
  unfold printNumber. destruct z as [|p|p].
  - eexists _, _. split; [reflexivity|]. split; reflexivity.
  - change (Z.to_int (Z.pos p)) with (Decimal.Pos (Pos.to_uint p)).
    pose proof (DecimalPos.Unsigned.to_uint_nonnil p) as Hp.
    simpl. destruct (Pos.to_uint p); [contradiction|..];
      eexists _, _; (split; [reflexivity|]); split; reflexivity.
  - eexists _, _. split; [reflexivity|]. split; reflexivity.
Qed.

Lemma readMember_string (key v rest : string) :
  readMember (printMember key (printString v) ++ rest)
  = Some (key, SString v, rest).
Proof.
  unfold printMember, readMember. rewrite !append_assoc.
  rewrite (printString_head key). cbn [skipSpace].
  change (isSpace (ascii_of_N 34)) with false. cbv iota.
  rewrite <- (printString_head key), readString_printString.
  rewrite append_char. cbn [skipSpace].
  change (isSpace ":") with false. cbv iota.
  change (N_of_ascii ":" =? 58)%N with true. cbv iota.
  rewrite (printString_head v). cbn [skipSpace].
  change (isSpace (ascii_of_N 34)) with false. cbv iota.
  rewrite <- (printString_head v). unfold readScalar.
  now rewrite readString_printString.
Qed.

Lemma readMember_number (key : string) (z : Z) (rest : string) :
  spanDigits rest = (EmptyString, rest) ->
  readMember (printMember key (printNumber z) ++ rest)
  = Some (key, SNumber z, rest).
Proof.
  intros Hrest. unfold printMember, readMember. rewrite !append_assoc.
  rewrite (printString_head key). cbn [skipSpace].
  change (isSpace (ascii_of_N 34)) with false. cbv iota.
  rewrite <- (printString_head key), readString_printString.
  rewrite append_char. cbn [skipSpace].
  change (isSpace ":") with false. cbv iota.
  change (N_of_ascii ":" =? 58)%N with true. cbv iota.
  destruct (printNumber_head z) as (c & s & Hz & Hquote & Hspace).
  assert (Hskip : skipSpace (printNumber z ++ rest) = printNumber z ++ rest).
  { rewrite Hz, append_cons. cbn [skipSpace]. now rewrite Hspace. }
  rewrite Hskip. unfold readScalar.
  assert (Hstr : readString (printNumber z ++ rest) = None).
  { rewrite Hz, append_cons. unfold readString. now rewrite Hquote. }
  now rewrite Hstr, readNumber_printNumber.
Qed.

Lemma readMembers_more (fuel : nat) (s tail key : string) (v : scalar)
    (seen : gmap string scalar) :
  readMember s = Some (key, v, String "," tail) ->
  readMembers (S fuel) s seen = readMembers fuel tail (<[key := v]> seen).
Proof. intros H. cbn [readMembers]. rewrite H. reflexivity. Qed.

Lemma readMembers_last (fuel : nat) (s tail key : string) (v : scalar)
    (seen : gmap string scalar) :
  readMember s = Some (key, v, String "}" tail) ->
  readMembers (S fuel) s seen = Some (<[key := v]> seen, tail).
Proof. intros H. cbn [readMembers]. rewrite H. reflexivity. Qed.

Lemma printMember_length (key text : string) :
  (1 <= String.length (printMember key text))%nat.
Proof.
  unfold printMember. rewrite printString_head. simpl. lia.
Qed.

Ltac read_string_member :=
  erewrite readMembers_more by apply readMember_string.

Ltac read_number_member :=
  erewrite readMembers_more by (apply readMember_number; reflexivity).

Lemma readItem_printItem (item : SaleItem) (rest : string) :
  readItem (printItem item ++ rest) = Some (item, rest).
Proof.
  destruct item as [i b t m c sh se d n].
  unfold printItem. cbn [id brand type model costPrice shippingCost
    sellingPrice date note].
  rewrite !append_assoc. rewrite (append_char "{").
  unfold readItem. cbn [skipSpace].
  change (isSpace "{") with false. cbv iota.
  change (N_of_ascii "{" =? 123)%N with true. cbv iota.
  rewrite !(append_char ",").
  match goal with
  | |- context [readMembers ?f _ _] => remember f as fuel eqn:Hfuel
  end.
  assert (Hlen : (9 <= fuel)%nat).
  { subst fuel. repeat (rewrite length_append || cbn [String.length]).
    pose proof (printMember_length "id" (printString i)).
    destruct n; repeat (rewrite length_append || cbn [String.length]); lia. }
  clear Hfuel.
  do 9 (destruct fuel as [|fuel]; [lia|]).
  read_string_member. read_string_member. read_string_member.
  read_string_member. read_number_member. read_number_member.
  read_number_member.
  destruct n as [n|].
  - rewrite !append_assoc, (append_char ","), (append_char "}").
    read_string_member.
    erewrite readMembers_last by apply readMember_string.
    unfold itemOfMembers, stringField, numberField. simplify_map_eq.
    reflexivity.
  - rewrite append_nil, (append_char "}").
    erewrite readMembers_last by apply readMember_string.
    unfold itemOfMembers, stringField, numberField. simplify_map_eq.
    reflexivity.
Qed.

Lemma printItem_head (item : SaleItem) :
  exists s, printItem item = String "{" s.
Proof. unfold printItem. rewrite (append_char "{"). eauto. Qed.

Lemma readItems_printItems (R : list SaleItem) (item : SaleItem)
    (fuel : nat) (rest : string) :
  (length R < fuel)%nat ->
  readItems fuel (printItems (item :: R) ++ String "]" rest)
  = Some (item :: R, rest).
Proof.
  revert item fuel. induction R as [|next R IH]; intros item fuel Hfuel;
    (destruct fuel as [|fuel]; [simpl in Hfuel; lia|]).
  - cbn [printItems readItems]. rewrite readItem_printItem. reflexivity.
  - change (printItems (item :: next :: R))
      with (printItem item ++ "," ++ printItems (next :: R)).
    rewrite !append_assoc, (append_char ",").
    cbn [readItems]. rewrite readItem_printItem. cbn [skipSpace].
    change (isSpace ",") with false. cbv iota.
    change (N_of_ascii "," =? 44)%N with true. cbv iota.
    rewrite IH by (simpl in Hfuel; lia). reflexivity.
Qed.

Lemma printItems_length (R : list SaleItem) :
  (length R <= String.length (printItems R))%nat.
Proof.
  induction R as [|item R IH]; [simpl; lia|].
  destruct (printItem_head item) as [s Hs].
  destruct R as [|next R].
  - cbn [printItems]. rewrite Hs. simpl. lia.
  - change (printItems (item :: next :: R))
      with (printItem item ++ "," ++ printItems (next :: R)).
    rewrite !length_append, Hs. simpl in *. lia.
Qed.

(** The codec reads back every list of records it prints. *)
Lemma parse_stringify (R : list SaleItem) :
  parse (stringify R) = Some R.
Proof.
  unfold stringify. destruct R as [|item R]; [reflexivity|].
  rewrite (append_char "["). unfold parse. cbn [skipSpace].
  change (isSpace "[") with false. cbv iota.
  change (N_of_ascii "[" =? 91)%N with true. cbv iota.
  assert (Hhead : exists s, printItems (item :: R) ++ "]" = String "{" s).
  { destruct (printItem_head item) as [s Hs]. destruct R as [|next R].
    - cbn [printItems]. rewrite Hs, append_cons. eauto.
    - change (printItems (item :: next :: R))
        with (printItem item ++ "," ++ printItems (next :: R)).
      rewrite Hs, !append_cons. eauto. }
  destruct Hhead as [s Hs]. rewrite Hs at 1. cbn [skipSpace].
  change (isSpace "{") with false. cbv iota.
  change (N_of_ascii "{" =? 93)%N with false. cbv iota.
  rewrite readItems_printItems; [reflexivity|].
  rewrite length_append. pose proof (printItems_length (item :: R)).
  simpl in *. lia.
Qed.

Lemma stringify_nonempty (R : list SaleItem) : stringify R <> "".
Proof. unfold stringify. rewrite (append_char "["). discriminate. Qed.
End JsonFacts.

(** With this codec every list of records is well-formed: whenever the
    store takes the write, loading returns what was saved. *)
Corollary loadSales_saveSales_json
    (accepts : gmap string string -> string -> string -> bool)
    (R : list SaleItem) (store : gmap string string) :
  accepts store STORAGE_KEY (Json.stringify R) = true ->
  loadSales Json.parse (saveSales Json.stringify accepts R store) = R.
Proof.
  intros Hwrite. unfold loadSales, saveSales, setItem, getItem.
  rewrite Hwrite, lookup_insert_eq, JsonFacts.parse_stringify.
  pose proof (JsonFacts.stringify_nonempty R) as Hne.
  apply String.eqb_neq in Hne. now rewrite Hne.
Qed.

(** * Further properties of the code *)

(** ** Totals *)

Lemma sumOver_app (f : SaleItem -> Z) (R1 R2 : list SaleItem) :
  sumOver f (R1 ++ R2) = sumOver f R1 + sumOver f R2.
Proof.
  induction R1 as [|r R1 IH]; [reflexivity|].
  rewrite <- app_comm_cons. cbn [sumOver]. rewrite IH. lia.
Qed.

Lemma sumOver_Permutation (f : SaleItem -> Z) (R1 R2 : list SaleItem) :
  R1 ≡ₚ R2 -> sumOver f R1 = sumOver f R2.
Proof.
  induction 1 as [|r R1 R2 _ IH|r r' R|R1 R2 R3 _ IH1 _ IH2];
    cbn [sumOver]; lia.
Qed.

Lemma sumOver_ext (f g : SaleItem -> Z) (R : list SaleItem) :
  (forall r, r ∈ R -> f r = g r) -> sumOver f R = sumOver g R.
Proof.
  induction R as [|r R IH]; intros H; cbn [sumOver]; [reflexivity|].
  rewrite (H r) by (now left). rewrite IH; [reflexivity|].
  intros r' Hr'. apply H. now right.
Qed.

Lemma weight_member (r : SaleItem) (R : list SaleItem) :
  r ∈ R -> weight r <= magnitude R.
Proof.
  unfold magnitude. induction R as [|x R IH]; intros Hin.
  - now apply elem_of_nil in Hin.
  - cbn [sumOver]. pose proof (weight_nonneg x).
    pose proof (magnitude_nonneg R) as HR. unfold magnitude in HR.
    apply elem_of_cons in Hin as [->|Hin]; [lia|]. specialize (IH Hin). lia.
Qed.

Lemma magnitude_filter (keep : SaleItem -> bool) (R : list SaleItem) :
  magnitude (List.filter keep R) <= magnitude R.
Proof.
  unfold magnitude. induction R as [|r R IH]; cbn [List.filter sumOver];
    [lia|].
  pose proof (weight_nonneg r). destruct (keep r); cbn [sumOver]; lia.
Qed.

Lemma exactRange_filter (keep : SaleItem -> bool) (R : list SaleItem) :
  exactRange R -> exactRange (List.filter keep R).
Proof.
  intros [Hm Hn]. split.
  - pose proof (magnitude_filter keep R). lia.
  - pose proof (sublist_length _ _ (filter_sublist keep R)). lia.
Qed.

Lemma exactRange_filteredSales (R : list SaleItem) (m : string) :
  exactRange R -> exactRange (filteredSales R m).
Proof.
  intros H. unfold filteredSales. destruct (String.eqb m "all");
    [exact H | now apply exactRange_filter].
Qed.

Lemma exactRange_Permutation (R1 R2 : list SaleItem) :
  R1 ≡ₚ R2 -> exactRange R1 -> exactRange R2.
Proof.
  intros HP [Hm Hn]. unfold exactRange, magnitude in *.
  rewrite <- (sumOver_Permutation weight R1 R2 HP).
  now rewrite <- (Permutation_length HP).
Qed.

Lemma exactRange_app (R1 R2 : list SaleItem) :
  exactRange (R1 ++ R2) -> exactRange R1 /\ exactRange R2.
Proof.
  unfold exactRange, magnitude. rewrite sumOver_app, length_app, Nat2Z.inj_add.
  pose proof (magnitude_nonneg R1) as H1. pose proof (magnitude_nonneg R2) as H2.
  unfold magnitude in H1, H2. intros [Hm Hn]. repeat split; lia.
Qed.

(** Within the exact range the totals are the plain sums. *)
Lemma stats_sums (R : list SaleItem) :
  exactRange R ->
  stats R =
  {| totalCost := sumOver (fun r => costPrice r + shippingCost r) R;
     totalRevenue := sumOver sellingPrice R;
     totalProfit := sumOver sellingPrice R
                    - sumOver (fun r => costPrice r + shippingCost r) R;
     count := Z.of_nat (length R) |}.
Proof.
  intros [Hm Hn]. unfold stats.
  rewrite stats_fold by (cbn [totalCost totalRevenue totalProfit count]; lia).
  reflexivity.
Qed.

(** Within the exact range, the totals of two lists put together are the
    sums of their totals. *)
Lemma stats_app (R1 R2 : list SaleItem) :
  exactRange (R1 ++ R2) ->
  stats (R1 ++ R2) = addStats (stats R1) (stats R2).
Proof.
  intros H. destruct (exactRange_app R1 R2 H) as [H1 H2].
  rewrite !stats_sums by assumption. unfold addStats.
  cbn [totalCost totalRevenue totalProfit count].
  rewrite !sumOver_app, length_app, Nat2Z.inj_add. f_equal; lia.
Qed.

(** As long as no addition rounds (the magnitudes of all amounts add up to
    at most 2^53), the totals do not depend on the order of the records. *)
Theorem stats_Permutation (R1 R2 : list SaleItem) :
  R1 ≡ₚ R2 -> exactRange R1 -> stats R1 = stats R2.
Proof.
  intros HP H1. pose proof (exactRange_Permutation R1 R2 HP H1) as H2.
  rewrite !stats_sums by assumption.
  rewrite (sumOver_Permutation _ R1 R2 HP).
  rewrite (sumOver_Permutation sellingPrice R1 R2 HP).
  now rewrite (Permutation_length HP).
Qed.

Lemma stats_Permutation_witness :
  stats [ mkSaleItem "1" "Sony" "Speaker" "X1" 1000 100 1500 "2024-01-15" None;
          mkSaleItem "2" "Bose" "Speaker" "B2" 500 50 900 "2024-02-20" None ]
  = stats
        [ mkSaleItem "2" "Bose" "Speaker" "B2" 500 50 900 "2024-02-20" None;
          mkSaleItem "1" "Sony" "Speaker" "X1" 1000 100 1500 "2024-01-15" None ].
Proof.
  apply stats_Permutation; [apply perm_swap|].
  split; vm_compute; discriminate.
Defined.

(** Above 2^53 the order matters: 2^53 + 1 + 1 is 2^53, 1 + 1 + 2^53 is
    2^53 + 2. *)
Example stats_order_matters :
  totalRevenue
    (stats [ mkSaleItem "1" "a" "t" "m" 0 0 (2 ^ 53) "2024-01-15" None;
             mkSaleItem "2" "a" "t" "m" 0 0 1 "2024-01-15" None;
             mkSaleItem "3" "a" "t" "m" 0 0 1 "2024-01-15" None ])
  = 2 ^ 53 /\
  totalRevenue
    (stats [ mkSaleItem "2" "a" "t" "m" 0 0 1 "2024-01-15" None;
             mkSaleItem "3" "a" "t" "m" 0 0 1 "2024-01-15" None;
             mkSaleItem "1" "a" "t" "m" 0 0 (2 ^ 53) "2024-01-15" None ])
  = 2 ^ 53 + 2.
Proof. vm_compute. split; reflexivity. Qed.

Lemma profit_exact (r : SaleItem) :
  weight r <= 2 ^ 53 ->
  profit r = sellingPrice r - (costPrice r + shippingCost r).
Proof.
  unfold weight, profit. intros H.
  rewrite addDouble_exact by lia. apply subDouble_exact. lia.
Qed.

(** As long as no addition rounds, the total profit of the dashboard is the
    sum of the profits the list view shows record by record. *)
Theorem stats_totalProfit_profit (R : list SaleItem) :
  exactRange R -> totalProfit (stats R) = sumOver profit R.
Proof.
  intros H. rewrite stats_sums by exact H. cbn [totalProfit].
  destruct H as [Hm _].
  rewrite (sumOver_ext profit
             (fun r => sellingPrice r - (costPrice r + shippingCost r))).
  - clear Hm. induction R as [|r R IH]; cbn [sumOver]; lia.
  - intros r Hr. apply profit_exact.
    pose proof (weight_member r R Hr). lia.
Qed.

Lemma stats_totalProfit_profit_witness :
  let R :=
    [ mkSaleItem "1" "Sony" "Speaker" "X1" 1000 100 1500 "2024-01-15" None;
      mkSaleItem "2" "Bose" "Speaker" "B2" 500 50 400 "2024-02-20" None ] in
  totalProfit (stats R) = sumOver profit R.
Proof.
  cbn zeta. apply stats_totalProfit_profit. split; vm_compute; discriminate.
Defined.

(** Each running total is a fold of its own. *)
Lemma stats_fold_totalCost (R : list SaleItem) (acc : SummaryStats) :
  totalCost (fold_left stats_step R acc)
  = fold_left
      (fun t r => addDouble t (addDouble (costPrice r) (shippingCost r)))
      R (totalCost acc).
Proof.
  revert acc. induction R as [|r R IH]; intros acc; [reflexivity|].
  cbn [fold_left]. now rewrite IH.
Qed.

Lemma stats_fold_totalRevenue (R : list SaleItem) (acc : SummaryStats) :
  totalRevenue (fold_left stats_step R acc)
  = fold_left (fun t r => addDouble t (sellingPrice r)) R (totalRevenue acc).
Proof.
  revert acc. induction R as [|r R IH]; intros acc; [reflexivity|].
  cbn [fold_left]. now rewrite IH.
Qed.

Lemma stats_fold_count (R : list SaleItem) (acc : SummaryStats) :
  count (fold_left stats_step R acc)
  = fold_left (fun t (_ : SaleItem) => addDouble t 1) R (count acc).
Proof.
  revert acc. induction R as [|r R IH]; intros acc; [reflexivity|].
  cbn [fold_left]. now rewrite IH.
Qed.

(** Adding non-negative terms with rounding: leaving terms out never gives
    more, since rounding is monotone and keeps a double as it is. *)
Lemma rounded_sum_filter_le (f : SaleItem -> Z) (keep : SaleItem -> bool)
    (R : list SaleItem) :
  Forall (fun r => 0 <= f r) R ->
  forall a1 a2, 0 <= a1 <= a2 -> roundDouble a2 = a2 ->
  fold_left (fun t r => addDouble t (f r)) (List.filter keep R) a1
  <= fold_left (fun t r => addDouble t (f r)) R a2.
Proof.
  induction 1 as [|r R Hr HR IH]; intros a1 a2 Ha Hd; [cbn; lia|].
  cbn [List.filter fold_left].
  assert (Hd' : roundDouble (addDouble a2 (f r)) = addDouble a2 (f r))
    by (unfold addDouble; apply roundDouble_idem; lia).
  destruct (keep r).
  - cbn [fold_left]. apply IH; [|exact Hd'].
    unfold addDouble. split; [apply roundDouble_pos; lia|].
    apply roundDouble_mono. lia.
  - apply IH; [|exact Hd']. split; [lia|].
    transitivity (roundDouble a2); [rewrite Hd; lia|].
    unfold addDouble. apply roundDouble_mono. lia.
Qed.

(** With non-negative amounts, the cost, the revenue and the number of
    records of a month never exceed those of the whole collection. *)
Theorem stats_filteredSales_le (R : list SaleItem) (m : string) :
  Forall nonNegative R ->
  totalCost (stats (filteredSales R m)) <= totalCost (stats R) /\
  totalRevenue (stats (filteredSales R m)) <= totalRevenue (stats R) /\
  count (stats (filteredSales R m)) <= count (stats R).
Proof.
  intros Hnn. unfold filteredSales. destruct (String.eqb m "all"); [lia|].
  unfold stats.
  rewrite !stats_fold_totalCost, !stats_fold_totalRevenue, !stats_fold_count.
  cbn [totalCost totalRevenue count].
  split; [|split].
  - apply (rounded_sum_filter_le
             (fun r => addDouble (costPrice r) (shippingCost r)));
      [|lia|reflexivity].
    eapply Forall_impl; [exact Hnn|].
    intros r (H1 & H2 & _). cbn beta. apply roundDouble_pos. lia.
  - apply (rounded_sum_filter_le sellingPrice); [|lia|reflexivity].
    eapply Forall_impl; [exact Hnn|]. intros r (_ & _ & H3). exact H3.
  - apply (rounded_sum_filter_le (fun _ => 1)); [|lia|reflexivity].
    apply Forall_forall. intros r _. lia.
Qed.

Lemma stats_filteredSales_le_witness :
  let R :=
    [ mkSaleItem "1" "Sony" "Speaker" "X1" 1000 100 1500 "2024-01-15" None;
      mkSaleItem "2" "Bose" "Speaker" "B2" 500 50 900 "2024-02-20" None ] in
  totalCost (stats (filteredSales R "2024-01")) <= totalCost (stats R) /\
  totalRevenue (stats (filteredSales R "2024-01")) <= totalRevenue (stats R) /\
  count (stats (filteredSales R "2024-01")) <= count (stats R).
Proof.
  cbn zeta. apply stats_filteredSales_le.
  repeat constructor; simpl; lia.
Defined.

(** ** Months *)

Lemma availableMonths_elem (R : list SaleItem) (m : string) :
  m ∈ availableMonths R <-> exists r, r ∈ R /\ monthOf r = m.
Proof.
  unfold availableMonths.
  rewrite elem_of_reverse, sort_Permutation, Set_from_elem, list_elem_of_fmap.
  unfold monthOf. split; intros [r [H1 H2]]; exists r; split; auto.
Qed.

Lemma availableMonths_NoDup (R : list SaleItem) : NoDup (availableMonths R).
Proof.
  unfold availableMonths.
  rewrite reverse_Permutation, sort_Permutation. apply Set_from_NoDup.
Qed.

Lemma availableMonths_sorted (R : list SaleItem) :
  StronglySorted laterMonth (availableMonths R).
Proof.
  apply descending_strict; [|apply availableMonths_NoDup].
  unfold availableMonths. apply Sorted_reverse, sort_ascending.
Qed.

Lemma startsWith_substring (s : string) (n : nat) :
  startsWith s (String.substring 0 n s) = true.
Proof.
  revert s. induction n as [|n IH]; intros [|c s]; simpl; try reflexivity.
  now rewrite Ascii.eqb_refl.
Qed.

Lemma startsWith_monthOf (r : SaleItem) :
  startsWith (date r) (monthOf r) = true.
Proof. apply startsWith_substring. Qed.

(** Every month the filter offers selects at least one record: the record
    the month was read from starts with it. *)
Theorem availableMonths_selects (R : list SaleItem) (m : string) :
  m ∈ availableMonths R -> filteredSales R m <> [].
Proof.
  intros Hm. apply availableMonths_elem in Hm as (r & Hr & <-).
  assert (Hin : r ∈ filteredSales R (monthOf r)).
  { unfold filteredSales. destruct (String.eqb (monthOf r) "all");
      [exact Hr|].
    apply list_elem_of_In, filter_In. split; [now apply list_elem_of_In|].
    apply startsWith_monthOf. }
  intros E. rewrite E in Hin. now apply elem_of_nil in Hin.
Qed.

Lemma availableMonths_selects_witness :
  filteredSales
    [ mkSaleItem "1" "Sony" "Speaker" "X1" 1000 100 1500 "2024-02-01" None;
      mkSaleItem "2" "Bose" "Speaker" "B2" 500 50 900 "2024-01-10" None ]
    "2024-01" <> [].
Proof.
  apply availableMonths_selects. vm_compute.
  apply list_elem_of_further, list_elem_of_here.
Defined.

Lemma laterMonth_asym (a b : string) : laterMonth a b -> laterMonth b a -> a = b.
Proof.
  intros [Hba _] [Hab _]. apply (anti_symm String.le); assumption.
Qed.

(** The months on offer depend only on which months occur among the
    records, not on the order or the number of the records. *)
Theorem availableMonths_same_months (R1 R2 : list SaleItem) :
  (forall m, (exists r, r ∈ R1 /\ monthOf r = m) <->
             (exists r, r ∈ R2 /\ monthOf r = m)) ->
  availableMonths R1 = availableMonths R2.
Proof.
  intros Hsame.
  apply (StronglySorted_unique_strong laterMonth).
  - intros a b _ _. apply laterMonth_asym.
  - apply availableMonths_sorted.
  - apply availableMonths_sorted.
  - apply NoDup_Permutation; [apply availableMonths_NoDup..|].
    intros m. rewrite !availableMonths_elem. apply Hsame.
Qed.

Lemma availableMonths_same_months_witness :
  availableMonths
    [ mkSaleItem "1" "Sony" "Speaker" "X1" 1000 100 1500 "2024-02-01" None;
      mkSaleItem "2" "Bose" "Speaker" "B2" 500 50 900 "2024-01-10" None ]
  = availableMonths
      [ mkSaleItem "2" "Bose" "Speaker" "B2" 500 50 900 "2024-01-10" None;
        mkSaleItem "1" "Sony" "Speaker" "X1" 1000 100 1500 "2024-02-01" None;
        mkSaleItem "3" "Denon" "Amplifier" "D3" 700 70 990 "2024-02-20" None ].
Proof.
  apply availableMonths_same_months.
  intros m; split; intros (r & Hr & Hm).
  - apply elem_of_cons in Hr as [Hr|Hr];
      [|apply elem_of_cons in Hr as [Hr|Hr];
        [|now apply elem_of_nil in Hr]]; subst r; subst m.
    + eexists; split;
        [apply list_elem_of_further, list_elem_of_here | reflexivity].
    + eexists; split; [apply list_elem_of_here | reflexivity].
  - apply elem_of_cons in Hr as [Hr|Hr];
      [|apply elem_of_cons in Hr as [Hr|Hr];
        [|apply elem_of_cons in Hr as [Hr|Hr];
          [|now apply elem_of_nil in Hr]]]; subst r; subst m.
    + eexists; split;
        [apply list_elem_of_further, list_elem_of_here | reflexivity].
    + eexists; split; [apply list_elem_of_here | reflexivity].
    + eexists; split; [apply list_elem_of_here | reflexivity].
Defined.

Lemma sumOverKeys_add (f g : string -> Z) (keys : list string) :
  sumOverKeys (fun k => f k + g k) keys
  = sumOverKeys f keys + sumOverKeys g keys.
Proof. induction keys as [|k keys IH]; cbn [sumOverKeys]; lia. Qed.

Lemma sumOverKeys_zero (keys : list string) :
  sumOverKeys (fun _ => 0) keys = 0.
Proof. induction keys as [|k keys IH]; cbn [sumOverKeys]; lia. Qed.

Lemma sumOverKeys_ext (f g : string -> Z) (keys : list string) :
  (forall k, k ∈ keys -> f k = g k) ->
  sumOverKeys f keys = sumOverKeys g keys.
Proof.
  induction keys as [|k keys IH]; intros H; cbn [sumOverKeys]; [reflexivity|].
  rewrite (H k) by (now left). rewrite IH; [reflexivity|].
  intros k' Hk'. apply H. now right.
Qed.

(** Among distinct keys exactly one is the key [k]. *)
Lemma sumOverKeys_indicator (k : string) (v : Z) (keys : list string) :
  NoDup keys -> k ∈ keys ->
  sumOverKeys (fun k' => if String.eqb k k' then v else 0) keys = v.
Proof.
  induction 1 as [|k0 keys Hnotin Hnd IH]; intros Hin.
  - now apply elem_of_nil in Hin.
  - cbn [sumOverKeys]. destruct (String.eqb_spec k k0) as [->|Hne].
    + rewrite (sumOverKeys_ext _ (fun _ => 0)).
      * rewrite sumOverKeys_zero. lia.
      * intros k' Hk'. destruct (String.eqb_spec k0 k') as [->|]; [|reflexivity].
        contradiction.
    + apply elem_of_cons in Hin as [->|Hin]; [contradiction|].
      rewrite IH by exact Hin. lia.
Qed.

(** Summing group by group, over distinct keys that cover every record,
    gives the sum over all records. *)
Lemma sumOver_by_key (f : SaleItem -> Z) (key : SaleItem -> string)
    (keys : list string) (R : list SaleItem) :
  NoDup keys -> (forall r, r ∈ R -> key r ∈ keys) ->
  sumOverKeys
    (fun k => sumOver f (List.filter (fun r => String.eqb (key r) k) R)) keys
  = sumOver f R.
Proof.
  intros Hnd. induction R as [|r R IH]; intros Hcover.
  - cbn [List.filter sumOver]. apply sumOverKeys_zero.
  - cbn [sumOver]. rewrite <- IH by (intros r' Hr'; apply Hcover; now right).
    rewrite <- (sumOverKeys_indicator (key r) (f r) keys Hnd)
      by (apply Hcover; now left).
    rewrite <- sumOverKeys_add. apply sumOverKeys_ext. intros k _.
    cbn [List.filter]. destruct (String.eqb (key r) k); cbn [sumOver]; lia.
Qed.

Lemma substring_length (n : nat) (s : string) :
  (n <= String.length s)%nat -> String.length (String.substring 0 n s) = n.
Proof.
  revert s. induction n as [|n IH]; intros [|c s] H; simpl in *;
    try reflexivity; try lia.
  rewrite IH; [reflexivity | lia].
Qed.

Lemma startsWith_substring_eq (s p : string) :
  startsWith s p = true -> String.substring 0 (String.length p) s = p.
Proof.
  revert s. induction p as [|c p IH]; intros s H.
  - now destruct s.
  - destruct s as [|d s]; [discriminate|]. simpl in H.
    destruct (Ascii.eqb_spec d c) as [->|]; [|discriminate].
    simpl. now rewrite IH.
Qed.

(** For dates of at least seven code units, the filter of an offered month
    keeps exactly the records of that month. *)
Lemma filteredSales_month (R : list SaleItem) (m : string) :
  Forall (fun r => (7 <= String.length (date r))%nat) R ->
  m ∈ availableMonths R ->
  filteredSales R m = List.filter (fun r => String.eqb (monthOf r) m) R.
Proof.
  intros Hlen Hm. apply availableMonths_elem in Hm as (r0 & Hr0 & <-).
  assert (H7 : String.length (monthOf r0) = 7%nat).
  { apply substring_length. rewrite Forall_forall in Hlen. now apply Hlen. }
  unfold filteredSales.
  destruct (String.eqb_spec (monthOf r0) "all") as [E|_].
  { rewrite E in H7. discriminate H7. }
  apply filter_ext_in. intros r Hr.
  destruct (String.eqb_spec (monthOf r) (monthOf r0)) as [E|Hne].
  - rewrite <- E. apply startsWith_monthOf.
  - destruct (startsWith (date r) (monthOf r0)) eqn:Hs; [|reflexivity].
    apply startsWith_substring_eq in Hs. rewrite H7 in Hs. contradiction.
Qed.

Lemma length_sumOver (R : list SaleItem) :
  Z.of_nat (length R) = sumOver (fun _ => 1) R.
Proof. induction R as [|r R IH]; cbn [length sumOver]; lia. Qed.

(** When every date has at least seven code units and no addition rounds
    (the magnitudes of all amounts add up to at most 2^53), the months on
    offer split the collection: the totals of the months add up to the
    totals of all records. *)
Theorem stats_by_month (R : list SaleItem) :
  Forall (fun r => (7 <= String.length (date r))%nat) R ->
  exactRange R ->
  let monthly (field : SummaryStats -> Z) :=
    sumOverKeys (fun m => field (stats (filteredSales R m)))
      (availableMonths R) in
  monthly totalCost = totalCost (stats R) /\
  monthly totalRevenue = totalRevenue (stats R) /\
  monthly totalProfit = totalProfit (stats R) /\
  monthly count = count (stats R).
Proof.
  intros Hlen Hexact. cbn zeta.
  assert (Hcover : forall r, r ∈ R -> monthOf r ∈ availableMonths R).
  { intros r Hr. apply availableMonths_elem. eauto. }
  pose proof (availableMonths_NoDup R) as Hnd.
  assert (Hfield : forall f (field : SummaryStats -> Z),
    (forall L, exactRange L -> field (stats L) = sumOver f L) ->
    sumOverKeys (fun m => field (stats (filteredSales R m)))
      (availableMonths R) = field (stats R)).
  { intros f field Hf. rewrite (Hf R Hexact).
    rewrite <- (sumOver_by_key f monthOf (availableMonths R) R Hnd Hcover).
    apply sumOverKeys_ext. intros m Hm.
    rewrite Hf by (now apply exactRange_filteredSales).
    now rewrite filteredSales_month. }
  split; [|split; [|split]].
  - apply (Hfield (fun r => costPrice r + shippingCost r)).
    intros L HL. now rewrite stats_sums.
  - apply (Hfield sellingPrice). intros L HL. now rewrite stats_sums.
  - apply (Hfield (fun r => sellingPrice r - (costPrice r + shippingCost r))).
    intros L HL. rewrite stats_sums by exact HL. cbn [totalProfit].
    clear HL. induction L as [|r L IH]; cbn [sumOver]; lia.
  - apply (Hfield (fun _ => 1)). intros L HL.
    rewrite stats_sums by exact HL. apply length_sumOver.
Qed.

Lemma stats_by_month_witness :
  let R :=
    [ mkSaleItem "1" "Sony" "Speaker" "X1" 1000 100 1500 "2024-02-01" None;
      mkSaleItem "2" "Bose" "Speaker" "B2" 500 50 900 "2024-01-10" None;
      mkSaleItem "3" "Denon" "Amplifier" "D3" 700 70 990 "2024-02-20" None ] in
  let monthly (field : SummaryStats -> Z) :=
    sumOverKeys (fun m => field (stats (filteredSales R m)))
      (availableMonths R) in
  monthly totalCost = totalCost (stats R) /\
  monthly totalRevenue = totalRevenue (stats R) /\
  monthly totalProfit = totalProfit (stats R) /\
  monthly count = count (stats R).
Proof.
  cbn zeta. apply stats_by_month.
  - repeat constructor; simpl; lia.
  - split; vm_compute; discriminate.
Defined.

(** A date shorter than seven code units breaks the split: its month is a
    prefix of other dates too, so their records are counted twice. *)
Example stats_by_month_short_date :
  let R :=
    [ mkSaleItem "1" "Sony" "Speaker" "X1" 1000 100 1500 "2024" None;
      mkSaleItem "2" "Bose" "Speaker" "B2" 500 50 900 "2024-01-10" None ] in
  sumOverKeys (fun m => count (stats (filteredSales R m))) (availableMonths R)
  = 3 /\ count (stats R) = 2.
Proof. vm_compute. split; reflexivity. Qed.

(** ** Chart entries *)

Lemma categoryData_own_witness :
  mkChartEntry "Speaker" (Finite 2) ∈
    categoryData
      [ mkSaleItem "1" "Sony" "Speaker" "X1" 1000 100 1500 "2024-01-15" None;
        mkSaleItem "2" "Bose" "Speaker" "B2" 500 50 900 "2024-01-20" None;
        mkSaleItem "3" "Denon" "Amplifier" "D3" 700 70 990 "2024-02-20" None ].
Proof.
  apply categoryData_own.
  - repeat constructor; unfold ownKey; simpl;
      (apply (bool_decide_unpack _); vm_compute; exact I).
  - vm_compute. split; reflexivity.
Defined.

Lemma setProp_lookup (data : gmap string jsnum) (key : string) (v : jsnum)
    (k : string) :
  is_Some (setProp data key v !! k) ->
  is_Some (data !! k) \/ (k = key /\ key <> "__proto__").
Proof.
  unfold setProp. destruct (String.eqb_spec key "__proto__") as [E|Hne];
    [now left|].
  destruct (decide (key = k)) as [<-|Hk].
  - intros _. right. split; [reflexivity | exact Hne].
  - rewrite lookup_insert_ne by exact Hk. now left.
Qed.

Lemma categoryData_step_keys (data : gmap string jsnum) (r : SaleItem)
    (k : string) :
  is_Some (categoryData_step data r !! k) ->
  is_Some (data !! k) \/ (k = type r /\ k <> "__proto__").
Proof.
  unfold categoryData_step.
  destruct (truthy (getProp data (type r))); intros H;
    apply setProp_lookup in H as [H|[-> H]]; auto.
Qed.

Lemma categoryCounts_keys (R : list SaleItem) (data : gmap string jsnum)
    (k : string) :
  is_Some (fold_left categoryData_step R data !! k) ->
  is_Some (data !! k) \/
  (k <> "__proto__" /\ exists r, r ∈ R /\ type r = k).
Proof.
  revert data. induction R as [|r R IH]; intros data H; [now left|].
  cbn [fold_left] in H. apply IH in H as [H|(Hk & r' & Hr' & E)].
  - apply categoryData_step_keys in H as [H|[-> H]]; [now left|].
    right. split; [exact H|]. exists r. split; [now left | reflexivity].
  - right. split; [exact Hk|]. exists r'. split; [now right | exact E].
Qed.

(** The chart never shows a type twice, every type it shows is the type of
    some record, and [__proto__] is never shown. *)
Theorem categoryData_names (R : list SaleItem) :
  NoDup (name <$> categoryData R) /\
  (forall e, e ∈ categoryData R ->
     name e <> "__proto__" /\ exists r, r ∈ R /\ type r = name e).
Proof.
  unfold categoryData. split.
  - rewrite <- list_fmap_compose.
    apply (NoDup_fst_map_to_list (categoryCounts R)).
  - intros e He. apply list_elem_of_fmap in He as ([k v] & -> & Hkv).
    apply elem_of_map_to_list in Hkv. cbn [name fst].
    assert (Hsome : is_Some (categoryCounts R !! k)) by eauto.
    apply categoryCounts_keys in Hsome as [Hsome|Hsome]; [|exact Hsome].
    rewrite lookup_empty in Hsome. now destruct Hsome.
Qed.

Lemma countOfType_filter (t : string) (R : list SaleItem) :
  countOfType t R
  = sumOver (fun _ => 1) (List.filter (fun r => String.eqb (type r) t) R).
Proof.
  induction R as [|r R IH]; cbn [countOfType List.filter sumOver];
    [reflexivity|].
  destruct (String.eqb (type r) t); cbn [sumOver]; lia.
Qed.

Lemma countOfType_pos (r : SaleItem) (R : list SaleItem) :
  r ∈ R -> 0 < countOfType (type r) R.
Proof.
  induction R as [|r' R IH]; intros Hin; [now apply elem_of_nil in Hin|].
  cbn [countOfType]. pose proof (countOfType_nonneg (type r) R).
  apply elem_of_cons in Hin as [<-|Hin].
  - rewrite String.eqb_refl. lia.
  - specialize (IH Hin). destruct (String.eqb (type r') (type r)); lia.
Qed.

Lemma entryCount_sum (R : list SaleItem) (entries : list (string * jsnum)) :
  (forall k v, (k, v) ∈ entries -> v = Finite (countOfType k R)) ->
  foldr (fun e acc => entryCount e + acc) 0
    ((fun kv => mkChartEntry kv.1 kv.2) <$> entries)
  = sumOverKeys (fun t => countOfType t R) (entries.*1).
Proof.
  induction entries as [|[k v] entries IH]; intros H; [reflexivity|].
  cbn [fmap list_fmap foldr sumOverKeys fst snd].
  rewrite (H k v) by (now left). unfold entryCount at 1. cbn [value].
  f_equal. apply IH. intros k' v' Hin. apply H. now right.
Qed.

(** When no [type] collides with an inherited property name, the counts of
    the chart add up to the number of records. *)
Theorem categoryData_total (R : list SaleItem) :
  Forall ownKey R ->
  foldr (fun e acc => entryCount e + acc) 0 (categoryData R)
  = Z.of_nat (length R).
Proof.
  intros Hown. unfold categoryData.
  rewrite (entryCount_sum R).
  - rewrite length_sumOver.
    rewrite <- (sumOver_by_key (fun _ => 1) type
                  ((map_to_list (categoryCounts R)).*1) R).
    + apply sumOverKeys_ext. intros t _. apply countOfType_filter.
    + apply NoDup_fst_map_to_list.
    + intros r Hr. pose proof (countOfType_pos r R Hr) as Hpos.
      apply list_elem_of_fmap.
      exists (type r, Finite (countOfType (type r) R)).
      split; [reflexivity|]. apply elem_of_map_to_list.
      rewrite categoryCounts_own by exact Hown. unfold counted.
      destruct (countOfType (type r) R =? 0)%Z eqn:E; [|reflexivity].
      apply Z.eqb_eq in E. lia.
  - intros k v Hkv. apply elem_of_map_to_list in Hkv.
    rewrite categoryCounts_own in Hkv by exact Hown. unfold counted in Hkv.
    destruct (countOfType k R =? 0)%Z; [discriminate|]. now injection Hkv.
Qed.

Lemma categoryData_total_witness :
  let R :=
    [ mkSaleItem "1" "Sony" "Speaker" "X1" 1000 100 1500 "2024-01-15" None;
      mkSaleItem "2" "Bose" "Speaker" "B2" 500 50 900 "2024-01-20" None;
      mkSaleItem "3" "Denon" "Amplifier" "D3" 700 70 990 "2024-02-20" None ] in
  foldr (fun e acc => entryCount e + acc) 0 (categoryData R)
  = Z.of_nat (length R).
Proof.
  cbn zeta. apply categoryData_total.
  repeat constructor; unfold ownKey; simpl;
    (apply (bool_decide_unpack _); vm_compute; exact I).
Defined.

(** ** Submitting, editing and deleting *)

Lemma handleSubmit_cases (uuid today : string) (st : AppState) :
  handleSubmit uuid today st = st \/
  (exists b m new,
     Form.brand (formData st) = Some b /\ Form.model (formData st) = Some m /\
     b <> "" /\ m <> "" /\
     handleSubmit uuid today st =
       {| sales := new; currentView := LIST; editingId := None;
          selectedMonth := selectedMonth st;
          formData := Form.initial today |} /\
     ((editingId st = None \/ editingId st = Some "") /\
        new = createSales (withId (formData st) b m uuid) (sales st)
      \/ exists editing,
           editingId st = Some editing /\ editing <> "" /\
           new = updateSales editing (withId (formData st) b m editing)
                   (sales st))).
Proof.
  unfold handleSubmit.
  destruct (Form.brand (formData st)) as [b|] eqn:Hb; [|now left].
  destruct (Form.model (formData st)) as [m|] eqn:Hm;
    [|left; now rewrite orb_true_r].
  cbn [falsy].
  destruct (String.eqb_spec b "") as [|Hbne]; [now left|].
  destruct (String.eqb_spec m "") as [|Hmne]; [now left|].
  cbn [orb]. right. exists b, m.
  destruct (editingId st) as [editing|].
  - destruct (String.eqb_spec editing "") as [->|Hne].
    + eexists. do 4 (split; [assumption || reflexivity|]).
      split; [reflexivity|]. left. split; [now right | reflexivity].
    + eexists. do 4 (split; [assumption || reflexivity|]).
      split; [reflexivity|]. right. exists editing.
      split; [reflexivity|]. split; [exact Hne | reflexivity].
  - eexists. do 4 (split; [assumption || reflexivity|]).
    split; [reflexivity|]. left. split; [now left | reflexivity].
Qed.

(** Submitting twice in a row does what submitting once does: an accepted
    submit empties the form, so the second one is rejected, and a rejected
    one changes nothing. *)
Theorem handleSubmit_twice (uuid1 today1 uuid2 today2 : string)
    (st : AppState) :
  handleSubmit uuid2 today2 (handleSubmit uuid1 today1 st)
  = handleSubmit uuid1 today1 st.
Proof.
  destruct (falsy (Form.brand (formData st)) ||
            falsy (Form.model (formData st))) eqn:Hguard.
  - rewrite (handleSubmit_guard uuid1 today1 st Hguard).
    now apply handleSubmit_guard.
  - destruct (handleSubmit_cases uuid1 today1 st)
      as [E|(b & m & new & _ & _ & _ & _ & E & _)].
    + rewrite E. unfold handleSubmit in E. rewrite Hguard in E.
      destruct (Form.brand (formData st)) as [b|] eqn:Hb; [|discriminate].
      destruct (Form.model (formData st)) as [m|] eqn:Hm;
        [|now rewrite orb_true_r in Hguard].
      apply (f_equal formData) in E. cbn [formData] in E.
      rewrite <- E in Hb. cbn in Hb. injection Hb as <-.
      discriminate Hguard.
    + rewrite E. now apply handleSubmit_guard.
Qed.

Lemma deleteSales_fresh (target : string) (prev : list SaleItem) :
  target ∉ ids prev -> deleteSales target prev = prev.
Proof.
  intros Hfresh. apply deleteSales_unchanged. intros item Hin E.
  apply Hfresh. unfold ids. apply list_elem_of_fmap. eauto.
Qed.

(** Creating a record and then deleting it by its id gives back the list
    there was, when the new id was not in use. *)
Theorem create_then_delete (uuid today b m : string) (st : AppState) :
  Form.brand (formData st) = Some b -> Form.model (formData st) = Some m ->
  b <> "" -> m <> "" -> editingId st = None ->
  uuid ∉ ids (sales st) ->
  sales (handleDelete uuid true (handleSubmit uuid today st)) = sales st.
Proof.
  intros Hb Hm Hbne Hmne He Hfresh.
  unfold handleDelete. cbn [sales].
  rewrite (handleSubmit_create uuid today b m st Hb Hm Hbne Hmne He).
  unfold createSales, deleteSales. cbn [List.filter withId id].
  rewrite String.eqb_refl. cbn [negb].
  now apply deleteSales_fresh.
Qed.

Lemma create_then_delete_witness :
  let st :=
    mkAppState
      [ mkSaleItem "a1" "Sony" "Speaker" "X1" 1000 100 1500 "2024-01-15" None ]
      FORM None "all"
      (Form.mk None (Some "Bose") "Speaker" (Some "B2") 500 50 900
         "2024-02-20" None) in
  sales (handleDelete "u1" true (handleSubmit "u1" "2024-03-01" st))
  = sales st.
Proof.
  cbn zeta. apply (create_then_delete "u1" "2024-03-01" "Bose" "B2");
    try reflexivity; try discriminate.
  vm_compute. intros H. apply elem_of_cons in H as [H|H];
    [discriminate H | now apply elem_of_nil in H].
Defined.

Lemma updateSales_ids (editing : string) (replacement : SaleItem)
    (prev : list SaleItem) :
  id replacement = editing ->
  ids (updateSales editing replacement prev) = ids prev.
Proof.
  intros Hid. unfold ids, updateSales.
  induction prev as [|x prev IH]; [reflexivity|].
  cbn [List.map fmap list_fmap]. cbn [fmap] in IH. rewrite IH. f_equal.
  destruct (String.eqb_spec (id x) editing) as [->|]; [exact Hid | reflexivity].
Qed.

(** A submit while a record is being edited never changes which ids the
    list holds, nor their order, whatever the form contains. *)
Theorem handleSubmit_update_ids (uuid today editing : string) (st : AppState) :
  editingId st = Some editing -> editing <> "" ->
  ids (sales (handleSubmit uuid today st)) = ids (sales st).
Proof.
  intros He Hne.
  destruct (handleSubmit_cases uuid today st)
    as [E|(b & m & new & _ & _ & _ & _ & E & Hnew)]; [now rewrite E|].
  rewrite E. cbn [sales].
  destruct Hnew as [[[H|H] _]|(editing' & He' & _ & ->)].
  - congruence.
  - rewrite He in H. injection H as ->. contradiction.
  - now apply updateSales_ids.
Qed.

Lemma handleSubmit_update_ids_witness :
  let st :=
    mkAppState
      [ mkSaleItem "a1" "Sony" "Speaker" "X1" 1000 100 1500 "2024-01-15" None;
        mkSaleItem "b2" "Bose" "Speaker" "B2" 500 50 900 "2024-02-20" None ]
      FORM (Some "b2") "all"
      (Form.mk (Some "b2") (Some "Bose") "Speaker" (Some "B3") 500 50 950
         "2024-02-20" None) in
  ids (sales (handleSubmit "u1" "2024-03-01" st)) = ids (sales st).
Proof.
  cbn zeta. apply (handleSubmit_update_ids "u1" "2024-03-01" "b2");
    [reflexivity | discriminate].
Defined.

Lemma deleteSales_ids (target : string) (prev : list SaleItem) :
  ids (deleteSales target prev)
  = List.filter (fun i => negb (String.eqb i target)) (ids prev).
Proof.
  unfold ids, deleteSales. induction prev as [|x prev IH]; [reflexivity|].
  cbn [List.filter fmap list_fmap]. cbn [fmap] in IH.
  destruct (String.eqb (id x) target); cbn [negb fmap list_fmap];
    now rewrite IH.
Qed.

Lemma NoDup_filter_ids (keep : string -> bool) (l : list string) :
  NoDup l -> NoDup (List.filter keep l).
Proof.
  intros H. exact (sublist_NoDup _ _ H (filter_sublist keep l)).
Qed.

(** No event makes two records share an id, as long as the id a create
    draws is not in use: an update keeps the ids, a delete removes some,
    and the other events do not touch the list. *)
Theorem dispatch_unique_ids (Number : string -> Z) (st : AppState)
    (ev : Event) :
  NoDup (ids (sales st)) ->
  (forall uuid today, ev = Submit uuid today -> uuid ∉ ids (sales st)) ->
  NoDup (ids (sales (dispatch Number st ev))).
Proof.
  intros Hnd Hfresh.
  destruct ev as [field text|uuid today|today|today|item|target confirmed
                  | | |month]; cbn [dispatch]; try exact Hnd.
  - destruct (handleSubmit_cases uuid today st)
      as [E|(b & m & new & _ & _ & _ & _ & E & Hnew)]; [now rewrite E|].
    rewrite E. cbn [sales].
    destruct Hnew as [[_ ->]|(editing & _ & _ & ->)].
    + unfold createSales, ids. cbn [fmap list_fmap withId id].
      apply NoDup_cons. split; [|exact Hnd].
      exact (Hfresh uuid today eq_refl).
    + rewrite updateSales_ids by reflexivity. exact Hnd.
  - destruct confirmed; [|exact Hnd]. cbn [handleDelete sales].
    rewrite deleteSales_ids. now apply NoDup_filter_ids.
Qed.

Lemma dispatch_unique_ids_witness :
  let st :=
    mkAppState
      [ mkSaleItem "a1" "Sony" "Speaker" "X1" 1000 100 1500 "2024-01-15" None ]
      FORM None "all"
      (Form.mk None (Some "Bose") "Speaker" (Some "B2") 500 50 900
         "2024-02-20" None) in
  NoDup (ids (sales (dispatch (fun _ => 0) st (Submit "u1" "2024-03-01")))).
Proof.
  cbn zeta. apply dispatch_unique_ids.
  - vm_compute. apply NoDup_singleton.
  - intros uuid today [= <- _]. vm_compute. intros H.
    apply elem_of_cons in H as [H|H];
      [discriminate H | now apply elem_of_nil in H].
Defined.

Lemma withId_formOfItem (item : SaleItem) :
  withId (formOfItem item) (brand item) (model item) (id item) = item.
Proof. now destruct item. Qed.

Lemma unique_id_record (l : list SaleItem) (x y : SaleItem) :
  NoDup (ids l) -> x ∈ l -> y ∈ l -> id x = id y -> x = y.
Proof.
  unfold ids. induction l as [|z l IH]; intros Hnd Hx Hy E.
  - now apply elem_of_nil in Hx.
  - cbn [fmap list_fmap] in Hnd. apply NoDup_cons in Hnd as [Hz Hnd].
    apply elem_of_cons in Hx as [->|Hx]; apply elem_of_cons in Hy as [->|Hy].
    + reflexivity.
    + exfalso. apply Hz. rewrite E. apply list_elem_of_fmap. eauto.
    + exfalso. apply Hz. rewrite <- E. apply list_elem_of_fmap. eauto.
    + now apply IH.
Qed.

Lemma updateSales_same (item : SaleItem) (l : list SaleItem) :
  (forall x, x ∈ l -> id x = id item -> x = item) ->
  updateSales (id item) item l = l.
Proof.
  unfold updateSales. induction l as [|x l IH]; intros H; [reflexivity|].
  cbn [List.map]. rewrite IH by (intros y Hy; apply H; now right).
  destruct (String.eqb_spec (id x) (id item)) as [E|]; [|reflexivity].
  now rewrite (H x (list_elem_of_here _ _) E).
Qed.

(** Opening a record for editing and saving it untouched leaves the list
    as it was, when the ids of the list are distinct. *)
Theorem edit_then_submit_unchanged (uuid today : string) (item : SaleItem)
    (st : AppState) :
  NoDup (ids (sales st)) -> item ∈ sales st ->
  id item <> "" -> brand item <> "" -> model item <> "" ->
  sales (handleSubmit uuid today (handleEdit item st)) = sales st.
Proof.
  intros Hnd Hin Hid Hb Hm.
  rewrite (handleSubmit_update uuid today (brand item) (model item) (id item))
    by (try reflexivity; assumption).
  cbn [handleEdit formData sales]. rewrite withId_formOfItem.
  apply updateSales_same. intros x Hx E.
  exact (unique_id_record (sales st) x item Hnd Hx Hin E).
Qed.

Lemma edit_then_submit_unchanged_witness :
  let item :=
    mkSaleItem "b2" "Bose" "Speaker" "B2" 500 50 900 "2024-02-20" None in
  let st :=
    mkAppState
      [ mkSaleItem "a1" "Sony" "Speaker" "X1" 1000 100 1500 "2024-01-15" None;
        item ]
      LIST None "all" (Form.initial "2024-03-01") in
  sales (handleSubmit "u1" "2024-03-01" (handleEdit item st)) = sales st.
Proof.
  cbn zeta. apply edit_then_submit_unchanged; try discriminate.
  - vm_compute. apply NoDup_cons. split; [|apply NoDup_singleton].
    intros H. apply elem_of_cons in H as [H|H];
      [discriminate H | now apply elem_of_nil in H].
  - apply list_elem_of_further, list_elem_of_here.
Defined.



(** Editing a record, typing a new selling price and saving replaces the
    records of that id by the record with the typed price and everything
    else as it was. *)
Theorem edit_sellingPrice (Number : string -> Z) (uuid today text : string)
    (item : SaleItem) (st : AppState) :
  id item <> "" -> brand item <> "" -> model item <> "" ->
  sales (handleSubmit uuid today
           (handleInputChange Number "sellingPrice" text (handleEdit item st)))
  = updateSales (id item)
      {| id := id item; brand := brand item; type := type item;
         model := model item; costPrice := costPrice item;
         shippingCost := shippingCost item; sellingPrice := Number text;
         date := date item; note := note item |}
      (sales st).
Proof.
  intros Hid Hb Hm.
  rewrite (handleSubmit_update uuid today (brand item) (model item) (id item))
    by (try reflexivity; assumption).
  reflexivity.
Qed.

Lemma edit_sellingPrice_witness :
  let item :=
    mkSaleItem "b2" "Bose" "Speaker" "B2" 500 50 900 "2024-02-20" None in
  let st := mkAppState [item] LIST None "all" (Form.initial "2024-03-01") in
  sales (handleSubmit "u1" "2024-03-01"
           (handleInputChange (fun _ => 950) "sellingPrice" "950"
              (handleEdit item st)))
  = updateSales (id item)
      {| id := id item; brand := brand item; type := type item;
         model := model item; costPrice := costPrice item;
         shippingCost := shippingCost item; sellingPrice := 950;
         date := date item; note := note item |}
      (sales st).
Proof.
  cbn zeta.
  apply (edit_sellingPrice (fun _ => 950) "u1" "2024-03-01" "950");
    discriminate.
Defined.

Lemma filter_comm {A} (f g : A -> bool) (l : list A) :
  List.filter f (List.filter g l) = List.filter g (List.filter f l).
Proof.
  induction l as [|x l IH]; [reflexivity|]. cbn [List.filter].
  destruct (f x) eqn:Hf, (g x) eqn:Hg; cbn [List.filter];
    rewrite ?Hf, ?Hg, IH; reflexivity.
Qed.

Lemma filter_idem {A} (f : A -> bool) (l : list A) :
  List.filter f (List.filter f l) = List.filter f l.
Proof.
  induction l as [|x l IH]; [reflexivity|]. cbn [List.filter].
  destruct (f x) eqn:Hf; cbn [List.filter]; rewrite ?Hf, IH; reflexivity.
Qed.

(** Confirmed deletes can be done in either order, and deleting the same
    id again changes nothing more. *)
Theorem handleDelete_commutes (a b : string) (st : AppState) :
  handleDelete a true (handleDelete b true st)
  = handleDelete b true (handleDelete a true st) /\
  handleDelete a true (handleDelete a true st) = handleDelete a true st.
Proof.
  unfold handleDelete, deleteSales.
  cbn [sales currentView editingId selectedMonth formData]. split.
  - f_equal. apply filter_comm.
  - f_equal. apply filter_idem.
Qed.

(** What the list view shows after a confirmed delete is what it showed
    before without the records of that id: the month filter and the delete
    do not interfere. *)
Theorem filteredSales_handleDelete (target m : string) (st : AppState) :
  filteredSales (sales (handleDelete target true st)) m
  = deleteSales target (filteredSales (sales st) m).
Proof.
  unfold handleDelete. cbn [sales]. unfold filteredSales, deleteSales.
  destruct (String.eqb m "all"); [reflexivity|]. apply filter_comm.
Qed.

Lemma exactRange_single (r : SaleItem) (R : list SaleItem) :
  exactRange (r :: R) -> exactRange [r].
Proof.
  intros H. change (r :: R) with ([r] ++ R)%list in H.
  now destruct (exactRange_app [r] R H).
Qed.

Lemma stats_single (r : SaleItem) : exactRange [r] -> stats [r] = statsOf r.
Proof.
  intros H. rewrite stats_sums by exact H. unfold statsOf.
  cbn [sumOver length]. f_equal; lia.
Qed.

(** As long as no addition rounds, an accepted create raises the count by
    one and the totals by the amounts of the new record. *)
Theorem stats_handleSubmit_create (uuid today b m : string) (st : AppState) :
  Form.brand (formData st) = Some b -> Form.model (formData st) = Some m ->
  b <> "" -> m <> "" -> editingId st = None ->
  exactRange (withId (formData st) b m uuid :: sales st) ->
  stats (sales (handleSubmit uuid today st))
  = addStats (statsOf (withId (formData st) b m uuid)) (stats (sales st)).
Proof.
  intros Hb Hm Hbne Hmne He Hexact.
  rewrite (handleSubmit_create uuid today b m st Hb Hm Hbne Hmne He).
  unfold createSales.
  change (withId (formData st) b m uuid :: sales st)
    with ([withId (formData st) b m uuid] ++ sales st)%list in Hexact |- *.
  rewrite stats_app by exact Hexact.
  rewrite stats_single; [reflexivity|].
  now destruct (exactRange_app _ _ Hexact).
Qed.

Lemma stats_handleSubmit_create_witness :
  let st :=
    mkAppState
      [ mkSaleItem "a1" "Sony" "Speaker" "X1" 1000 100 1500 "2024-01-15" None ]
      FORM None "all"
      (Form.mk None (Some "Bose") "Speaker" (Some "B2") 500 50 900
         "2024-02-20" None) in
  stats (sales (handleSubmit "u1" "2024-03-01" st))
  = addStats (statsOf (withId (formData st) "Bose" "B2" "u1"))
      (stats (sales st)).
Proof.
  cbn zeta. apply stats_handleSubmit_create; try reflexivity;
    try discriminate.
  split; vm_compute; discriminate.
Defined.

Lemma sumOver_delete_unique (f : SaleItem -> Z) (item : SaleItem)
    (l : list SaleItem) :
  NoDup (ids l) -> item ∈ l ->
  sumOver f (deleteSales (id item) l) + f item = sumOver f l.
Proof.
  unfold ids, deleteSales. induction l as [|x l IH]; intros Hnd Hin.
  - now apply elem_of_nil in Hin.
  - cbn [fmap list_fmap] in Hnd. apply NoDup_cons in Hnd as [Hx Hnd].
    cbn [List.filter sumOver].
    apply elem_of_cons in Hin as [->|Hin].
    + rewrite String.eqb_refl. cbn [negb].
      fold (deleteSales (id x) l). rewrite deleteSales_fresh by exact Hx. lia.
    + destruct (String.eqb_spec (id x) (id item)) as [E|_].
      * exfalso. apply Hx. rewrite E. apply list_elem_of_fmap. eauto.
      * cbn [negb sumOver]. specialize (IH Hnd Hin). lia.
Qed.

(** With distinct ids and as long as no addition rounds, a confirmed
    delete of a record lowers the count by one and the totals by the amounts
    of that record. *)
Theorem stats_handleDelete (item : SaleItem) (st : AppState) :
  NoDup (ids (sales st)) -> item ∈ sales st -> exactRange (sales st) ->
  addStats (statsOf item) (stats (sales (handleDelete (id item) true st)))
  = stats (sales st).
Proof.
  intros Hnd Hin Hexact. unfold handleDelete. cbn [sales].
  rewrite (stats_sums (sales st)) by exact Hexact.
  rewrite stats_sums by (now apply exactRange_filter).
  unfold addStats, statsOf.
  cbn [totalCost totalRevenue totalProfit count].
  pose proof (sumOver_delete_unique (fun r => costPrice r + shippingCost r)
                item _ Hnd Hin) as Hc.
  pose proof (sumOver_delete_unique sellingPrice item _ Hnd Hin) as Hr.
  pose proof (sumOver_delete_unique (fun _ => 1) item _ Hnd Hin) as Hn.
  rewrite <- !length_sumOver in Hn. cbn beta in Hc.
  f_equal; lia.
Qed.

Lemma stats_handleDelete_witness :
  let item :=
    mkSaleItem "b2" "Bose" "Speaker" "B2" 500 50 900 "2024-02-20" None in
  let st :=
    mkAppState
      [ mkSaleItem "a1" "Sony" "Speaker" "X1" 1000 100 1500 "2024-01-15" None;
        item ]
      LIST None "all" (Form.initial "2024-03-01") in
  addStats (statsOf item) (stats (sales (handleDelete (id item) true st)))
  = stats (sales st).
Proof.
  cbn zeta. apply stats_handleDelete.
  - vm_compute. apply NoDup_cons. split; [|apply NoDup_singleton].
    intros H. apply elem_of_cons in H as [H|H];
      [discriminate H | now apply elem_of_nil in H].
  - apply list_elem_of_further, list_elem_of_here.
  - split; vm_compute; discriminate.
Defined.

(** ** Typing into the form *)

(** Typing into a field twice keeps only the last text. *)
Theorem handleInputChange_overwrites (Number : string -> Z)
    (field text1 text2 : string) (st : AppState) :
  handleInputChange Number field text2
    (handleInputChange Number field text1 st)
  = handleInputChange Number field text2 st.
Proof.
  unfold handleInputChange.
  cbn [sales currentView editingId selectedMonth formData]. f_equal.
  destruct (includes field "Price" || includes field "Cost").
  - unfold setNumber.
    repeat (destruct (String.eqb field _); [reflexivity|]). reflexivity.
  - unfold setText.
    repeat (destruct (String.eqb field _); [reflexivity|]). reflexivity.
Qed.

(** Typing into two different fields gives the same form in either
    order. *)
Theorem handleInputChange_commutes (Number : string -> Z)
    (field1 field2 text1 text2 : string) (st : AppState) :
  field1 <> field2 ->
  handleInputChange Number field1 text1
    (handleInputChange Number field2 text2 st)
  = handleInputChange Number field2 text2
      (handleInputChange Number field1 text1 st).
Proof.
  intros Hne. unfold handleInputChange.
  cbn [sales currentView editingId selectedMonth formData]. f_equal.
  destruct (includes field1 "Price" || includes field1 "Cost"),
           (includes field2 "Price" || includes field2 "Cost");
    unfold setNumber, setText;
    repeat (case String.eqb_spec; intros);
    subst; try reflexivity; try contradiction; try discriminate.
Qed.

Lemma handleInputChange_commutes_witness :
  let st :=
    mkAppState [] FORM None "all" (Form.initial "2024-03-01") in
  handleInputChange (fun _ => 950) "sellingPrice" "950"
    (handleInputChange (fun _ => 950) "brand" "Bose" st)
  = handleInputChange (fun _ => 950) "brand" "Bose"
      (handleInputChange (fun _ => 950) "sellingPrice" "950" st).
Proof.
  cbn zeta. apply handleInputChange_commutes. discriminate.
Defined.

(** ** Runs of events *)

Lemma filteredSales_subset (R : list SaleItem) (m : string) (r : SaleItem) :
  r ∈ filteredSales R m -> r ∈ R.
Proof.
  unfold filteredSales. destruct (String.eqb m "all"); [tauto|].
  intros H. apply list_elem_of_In, filter_In in H as [H _].
  now apply list_elem_of_In.
Qed.

Lemma dispatch_editsExisting (Number : string -> Z) (st : AppState)
    (ev : Event) :
  editsExisting st -> offered st ev ->
  editsExisting (dispatch Number st ev).
Proof.
  intros Hinv Hoff.
  destruct ev as [field text|uuid today|today|today|item|target confirmed
                  | | |month]; cbn [dispatch offered] in *.
  - exact Hinv.
  - destruct (handleSubmit_cases uuid today st)
      as [E|(b & m & new & _ & _ & _ & _ & E & _)]; rewrite E;
      [exact Hinv|]. intros Hview. discriminate Hview.
  - intros Hview. discriminate Hview.
  - intros _ editing He. discriminate He.
  - destruct Hoff as [_ Hin]. intros _ editing He.
    cbn [handleEdit editingId sales] in *. injection He as <-.
    exists item. split; [|reflexivity]. eapply filteredSales_subset, Hin.
  - destruct Hoff as [Hlist _]. intros Hview.
    destruct confirmed; cbn [handleDelete currentView] in Hview; congruence.
  - intros Hview. discriminate Hview.
  - intros Hview. discriminate Hview.
  - destruct Hoff as [Hdash _]. intros Hview.
    cbn [setSelectedMonth currentView] in Hview. congruence.
Qed.

(** In every state the user can reach from the first render through the
    events the markup offers, an open edit refers to a record that is in
    the list: the form is entered only through the add buttons, which clear
    [editingId], or through the edit button of a listed record, and the list
    does not change while the form is shown. *)
Theorem offeredRun_editsExisting (Number : string -> Z) (today : string)
    (loaded : list SaleItem) (events : list Event) :
  offeredRun Number (initialState today loaded) events ->
  let st := dispatchAll Number events (initialState today loaded) in
  currentView st = FORM ->
  forall editing, editingId st = Some editing ->
  exists item, item ∈ sales st /\ id item = editing.
Proof.
  intros Hrun. cbn zeta.
  assert (Hgen : forall st, editsExisting st -> offeredRun Number st events ->
                 editsExisting (dispatchAll Number events st)).
  { clear Hrun. induction events as [|ev events IH]; intros st Hinv Hrun.
    - exact Hinv.
    - inversion Hrun as [|st' ev' events' Hoff Hrest]; subst.
      cbn [dispatchAll fold_left]. apply IH; [|exact Hrest].
      now apply dispatch_editsExisting. }
  apply (Hgen _); [|exact Hrun].
  intros Hview. discriminate Hview.
Qed.

Lemma offeredRun_editsExisting_witness :
  let item :=
    mkSaleItem "b2" "Bose" "Speaker" "B2" 500 50 900 "2024-02-20" None in
  let st :=
    dispatchAll (fun _ => 950)
      [ShowList; Edit item; InputChange "sellingPrice" "950"]
      (initialState "2024-03-01" [item]) in
  exists found, found ∈ sales st /\ id found = "b2".
Proof.
  cbn zeta.
  apply (offeredRun_editsExisting (fun _ => 950) "2024-03-01"
           [mkSaleItem "b2" "Bose" "Speaker" "B2" 500 50 900 "2024-02-20" None]
           [ShowList;
            Edit (mkSaleItem "b2" "Bose" "Speaker" "B2" 500 50 900
                    "2024-02-20" None);
            InputChange "sellingPrice" "950"]);
    [|reflexivity|reflexivity].
  constructor; [exact I|].
  constructor; [split; [reflexivity | apply list_elem_of_here]|].
  constructor; [reflexivity|]. constructor.
Defined.

(** ** Record store, continued *)

(** Saving writes under the one storage key only: whatever else the store
    holds is untouched, whether the write is taken or refused. *)
Theorem saveSales_other_keys (JSON_stringify : list SaleItem -> string)
    (accepts : gmap string string -> string -> string -> bool)
    (R : list SaleItem) (store : gmap string string) (key : string) :
  key <> STORAGE_KEY ->
  saveSales JSON_stringify accepts R store !! key = store !! key.
Proof.
  intros Hne. unfold saveSales, setItem.
  destruct (accepts store STORAGE_KEY (JSON_stringify R)); [|reflexivity].
  apply lookup_insert_ne. congruence.
Qed.

Lemma saveSales_other_keys_witness :
  saveSales Json.stringify (fun _ _ _ => true)
    [ mkSaleItem "a1" "Sony" "Speaker" "X1" 1000 100 1500 "2024-01-15" None ]
    {[ "theme" := "dark" ]} !! "theme"
  = ({[ "theme" := "dark" ]} : gmap string string) !! "theme".
Proof. apply saveSales_other_keys. discriminate. Defined.

(** A refused write goes unnoticed: loading afterwards returns what
    loading returned before the save, not the list that was to be saved. *)
Theorem loadSales_after_refused_save
    (JSON_stringify : list SaleItem -> string)
    (JSON_parse : string -> option (list SaleItem))
    (accepts : gmap string string -> string -> string -> bool)
    (R : list SaleItem) (store : gmap string string) :
  accepts store STORAGE_KEY (JSON_stringify R) = false ->
  loadSales JSON_parse (saveSales JSON_stringify accepts R store)
  = loadSales JSON_parse store.
Proof.
  intros Hrefused. unfold saveSales, setItem. now rewrite Hrefused.
Qed.

Lemma loadSales_after_refused_save_witness :
  loadSales Json.parse
    (saveSales Json.stringify (fun _ _ _ => false)
       [ mkSaleItem "a1" "Sony" "Speaker" "X1" 1000 100 1500 "2024-01-15" None ]
       ∅)
  = loadSales Json.parse ∅.
Proof. apply loadSales_after_refused_save. reflexivity. Defined.

(** Loading yields the empty list unless the key holds a non-empty text
    that parses; then it yields the parsed list. A missing key, an empty
    text and a text that does not parse are all read as no records. *)
Theorem loadSales_cases (JSON_parse : string -> option (list SaleItem))
    (store : gmap string string) :
  (loadSales JSON_parse store = [] \/
   exists data, store !! STORAGE_KEY = Some data /\ data <> "" /\
                JSON_parse data = Some (loadSales JSON_parse store)) /\
  (store !! STORAGE_KEY = None -> loadSales JSON_parse store = []) /\
  (store !! STORAGE_KEY = Some "" -> loadSales JSON_parse store = []) /\
  (forall data, store !! STORAGE_KEY = Some data -> JSON_parse data = None ->
     loadSales JSON_parse store = []).
Proof.
  unfold loadSales, getItem. repeat split.
  - destruct (store !! STORAGE_KEY) as [data|]; [|now left].
    destruct (String.eqb_spec data "") as [|Hne]; [now left|].
    destruct (JSON_parse data) as [items|] eqn:Hp; [|now left].
    right. exists data. repeat split; assumption.
  - intros ->. reflexivity.
  - intros ->. reflexivity.
  - intros data -> ->. now destruct (String.eqb data "").
Qed.

(** Of two saves the store takes, the later one is what loading returns. *)
Theorem saveSales_last_wins (JSON_stringify : list SaleItem -> string)
    (JSON_parse : string -> option (list SaleItem))
    (accepts : gmap string string -> string -> string -> bool)
    (R1 R2 : list SaleItem) (store : gmap string string) :
  accepts (saveSales JSON_stringify accepts R1 store) STORAGE_KEY
    (JSON_stringify R2) = true ->
  JSON_stringify R2 <> "" ->
  JSON_parse (JSON_stringify R2) = Some R2 ->
  loadSales JSON_parse
    (saveSales JSON_stringify accepts R2
       (saveSales JSON_stringify accepts R1 store)) = R2.
Proof.
  intros Hwrite Htext Hcodec.
  unfold loadSales, getItem.
  unfold saveSales at 1. unfold setItem at 1.
  rewrite Hwrite, lookup_insert_eq.
  apply String.eqb_neq in Htext. now rewrite Htext, Hcodec.
Qed.

Lemma saveSales_last_wins_witness :
  let R1 :=
    [ mkSaleItem "a1" "Sony" "Speaker" "X1" 1000 100 1500 "2024-01-15" None ] in
  let R2 :=
    [ mkSaleItem "b2" "Bose" "Speaker" "B2" 500 50 900 "2024-02-20" None;
      mkSaleItem "a1" "Sony" "Speaker" "X1" 1000 100 1500 "2024-01-15" None ] in
  loadSales Json.parse
    (saveSales Json.stringify (fun _ _ _ => true) R2
       (saveSales Json.stringify (fun _ _ _ => true) R1 ∅)) = R2.
Proof.
  cbn zeta. apply saveSales_last_wins.
  - reflexivity.
  - vm_compute. discriminate.
  - vm_compute. reflexivity.
Defined.

(** ** Create, and what the views show afterwards *)

(** An accepted create puts the new record, under the fresh id and with
    the values of the form, in front of the records there were, shows the
    list view and leaves a blank form with no edit open. *)
Theorem handleSubmit_creates (uuid today b m : string) (st : AppState) :
  Form.brand (formData st) = Some b -> Form.model (formData st) = Some m ->
  b <> "" -> m <> "" -> editingId st = None ->
  handleSubmit uuid today st =
  {| sales := withId (formData st) b m uuid :: sales st;
     currentView := LIST; editingId := None;
     selectedMonth := selectedMonth st; formData := Form.initial today |} /\
  id (withId (formData st) b m uuid) = uuid /\
  costPrice (withId (formData st) b m uuid) = Form.costPrice (formData st) /\
  shippingCost (withId (formData st) b m uuid)
    = Form.shippingCost (formData st) /\
  sellingPrice (withId (formData st) b m uuid)
    = Form.sellingPrice (formData st).
Proof.
  intros Hb Hm Hbne Hmne He. split; [|repeat split].
  unfold handleSubmit. rewrite Hb, Hm, He. cbn [falsy].
  apply String.eqb_neq in Hbne, Hmne. now rewrite Hbne, Hmne.
Qed.

Lemma handleSubmit_creates_witness :
  let st :=
    mkAppState
      [ mkSaleItem "a1" "Sony" "Speaker" "X1" 1000 100 1500 "2024-01-15" None ]
      FORM None "all"
      (Form.mk None (Some "Bose") "Speaker" (Some "B2") 500 50 900
         "2024-02-20" None) in
  handleSubmit "u1" "2024-03-01" st =
  {| sales := withId (formData st) "Bose" "B2" "u1" :: sales st;
     currentView := LIST; editingId := None;
     selectedMonth := selectedMonth st;
     formData := Form.initial "2024-03-01" |} /\
  id (withId (formData st) "Bose" "B2" "u1") = "u1" /\
  costPrice (withId (formData st) "Bose" "B2" "u1")
    = Form.costPrice (formData st) /\
  shippingCost (withId (formData st) "Bose" "B2" "u1")
    = Form.shippingCost (formData st) /\
  sellingPrice (withId (formData st) "Bose" "B2" "u1")
    = Form.sellingPrice (formData st).
Proof.
  cbn zeta. apply handleSubmit_creates; try reflexivity; discriminate.
Defined.

(** A form that was just opened with an add button, or cancelled, cannot
    be saved as it is: its brand and model are empty, so a submit changes
    nothing. *)
Theorem blank_form_rejected (uuid today today' : string) (st : AppState) :
  handleSubmit uuid today' (openForm today st) = openForm today st /\
  handleSubmit uuid today' (cancelForm today st) = cancelForm today st.
Proof. split; reflexivity. Qed.

Lemma deleteSales_all (target : string) (l : list SaleItem) :
  (forall x, x ∈ l -> id x = target) -> deleteSales target l = [].
Proof.
  unfold deleteSales. induction l as [|x l IH]; intros H; [reflexivity|].
  cbn [List.filter]. rewrite (H x) by (now left). rewrite String.eqb_refl.
  cbn [negb]. apply IH. intros y Hy. apply H. now right.
Qed.

(** A delete keeps the selected month: once the records a month shows are
    all deleted, the list view of that month is empty although the month
    is still the selected one. *)
Theorem handleDelete_keeps_month (target : string) (st : AppState) :
  (forall r, r ∈ filteredSales (sales st) (selectedMonth st) ->
     id r = target) ->
  let st' := handleDelete target true st in
  selectedMonth st' = selectedMonth st /\
  filteredSales (sales st') (selectedMonth st') = [].
Proof.
  intros Hall. cbn zeta. split; [reflexivity|].
  unfold handleDelete. cbn [sales selectedMonth].
  assert (E : filteredSales (deleteSales target (sales st)) (selectedMonth st)
              = deleteSales target
                  (filteredSales (sales st) (selectedMonth st))).
  { unfold filteredSales, deleteSales.
    destruct (String.eqb (selectedMonth st) "all"); [reflexivity|].
    apply filter_comm. }
  rewrite E. now apply deleteSales_all.
Qed.

Lemma handleDelete_keeps_month_witness :
  let st :=
    mkAppState
      [ mkSaleItem "a1" "Sony" "Speaker" "X1" 1000 100 1500 "2024-01-15" None;
        mkSaleItem "b2" "Bose" "Speaker" "B2" 500 50 900 "2024-02-20" None ]
      LIST None "2024-02" (Form.initial "2024-03-01") in
  let st' := handleDelete "b2" true st in
  selectedMonth st' = selectedMonth st /\
  filteredSales (sales st') (selectedMonth st') = [].
Proof.
  cbn zeta. apply handleDelete_keeps_month.
  intros r Hr. vm_compute in Hr.
  apply elem_of_cons in Hr as [->|Hr]; [reflexivity|].
  now apply elem_of_nil in Hr.
Defined.
